(** * Py_Utilities: the remote-operation helpers

  A shallow embedding of

    - [py_utilities/remote_operations/remote_linux_commands.py]
      ([remote_operations], [RemoteCommandError]) and
    - [py_utilities/remote_operations/pick_unused_port.py]
      ([pick_port], [NoCommandFoundError], [NoPortsFound]),
    - the integer conversions of
      [py_utilities/conversions/str_conversions.py],

  followed by their properties.

  The first two talk to a child process through Python's [subprocess]
  module.  The module is not part of the repository, so the embedding takes
  it as a parameter: a [system] says whether [Popen] accepts a call and
  which process double it hands back, a double that answers
  [stdout.readlines()], [stderr.readlines()] and [communicate()].
  [subprocess] stands for the library itself, which rejects every [Popen]
  call of the two functions because of the keyword [buffsize]; [spawned] is
  a double put in the place of [Popen].  Every call made on the library or
  on the process is logged as an [event], in program order, next to the
  value returned or the exception raised. *)

From Stdlib Require Import String Ascii List ZArith Lia Bool DecimalString.
Import ListNotations.
Local Open Scope string_scope.
Local Open Scope Z_scope.

(** ** Python values and primitives *)

Module Py.

(** The three shapes of value that flow through [results], [result] and
    [error] in the two functions. *)
Inductive value : Type :=
| PyNone
| PyStr (s : string)
| PyList (l : list string).

(** The exception classes the two modules declare, and the built-in
    [TypeError] that [str.join] and [re.search] raise on an operand of the
    wrong type. *)
Inductive exn : Type :=
| TypeError
| RemoteCommandError (msg : string)
| NoCommandFoundError (msg : string)
| NoPortsFound (msg : string).

Inductive outcome (A : Type) : Type :=
| Return (a : A)
| Raise (e : exn).
Arguments Return {A} a.
Arguments Raise {A} e.

Definition of_option (o : option string) : value :=
  match o with
  | None => PyNone
  | Some s => PyStr s
  end.

(** [bool(v)]: [None], [''] and [[]] are false. *)
Definition truthy (v : value) : bool :=
  match v with
  | PyNone => false
  | PyStr s => negb (String.eqb s "")
  | PyList l => negb (Nat.eqb (List.length l) 0)
  end.

(** The line feed, written backslash-n in the source. *)
Definition LF : string := String (ascii_of_nat 10) EmptyString.

(** [str(n)] for an [int]. *)
Definition str (n : Z) : string := NilZero.string_of_int (Z.to_int n).

(** ['%s' % h] where [h] is a [str] or [None]. *)
Definition str_of_host (h : option string) : string :=
  match h with
  | None => "None"
  | Some s => s
  end.

(** [p in s] for two strings. *)
Fixpoint occurs (p s : string) : bool :=
  if String.prefix p s then true
  else match s with
       | EmptyString => false
       | String _ s' => occurs p s'
       end.

(** Iterating over a [str] yields its one-character strings. *)
Fixpoint chars (s : string) : list string :=
  match s with
  | EmptyString => []
  | String c s' => String c EmptyString :: chars s'
  end.

(** [sep.join(v)]. *)
Definition join (sep : string) (v : value) : outcome string :=
  match v with
  | PyNone => Raise TypeError
  | PyStr s => Return (String.concat sep (chars s))
  | PyList l => Return (String.concat sep l)
  end.

(** [re.search(pattern, subject) is not None], for a [pattern] without
    regular-expression metacharacters (here always [str(port)], a decimal
    numeral).  A subject that is not a string is a [TypeError]. *)
Definition re_search (pattern : string) (subject : value) : outcome bool :=
  match subject with
  | PyStr s => Return (occurs pattern s)
  | PyNone | PyList _ => Raise TypeError
  end.

(** [re.match(a1|a2|..., line) is not None] for literal alternatives:
    [re.match] anchors at the first character of [line]. *)
Definition re_match_alternatives (alts : list string) (line : string) : bool :=
  existsb (fun a => String.prefix a line) alts.

(** [l[k:]]. *)
Definition slice_from {A : Type} (k : Z) (l : list A) : list A :=
  if 0 <=? k then skipn (Z.to_nat k) l
  else skipn (Z.to_nat (Z.max 0 (Z.of_nat (List.length l) + k))) l.

(** [range(lo, hi)]. *)
Definition range (lo hi : Z) : list Z :=
  map (fun i => lo + Z.of_nat i) (seq 0 (Z.to_nat (hi - lo))).

End Py.
Export Py.

(** ** The subprocess interface *)

Module Subprocess.

(** First argument of [Popen]: an argument vector or one command string. *)
Inductive cmdline : Type :=
| Argv (l : list string)
| CommandString (s : string).

(** The arguments of a [Popen] call.  The three [*_pipe] fields say whether
    [subprocess.PIPE] was passed for that stream.  All call sites pass
    [universal_newlines=True] and the keyword [buffsize=0]; the parameter of
    [Popen] is spelt [bufsize]. *)
Record popen_args : Type := {
  args : cmdline;
  shell : bool;
  stdin_pipe : bool;
  stdout_pipe : bool;
  stderr_pipe : bool;
  universal_newlines : bool;
  buffsize : Z
}.

(** A process double: what the three reading calls answer.  In text mode
    [communicate] returns a pair whose components are a [str], or [None]
    for a stream that is not piped. *)
Record proc : Type := {
  stdout_readlines : list string;
  stderr_readlines : list string;
  communicate : option string * option string
}.

(** What stands for the [subprocess] module: whether [Popen] accepts a
    call, and the process double it hands back when it does. *)
Record system : Type := {
  Popen_accepts : popen_args -> bool;
  child :> popen_args -> proc
}.

(** A child that writes the lines [out] and [err], read through the pipes
    that the [Popen] call asked for. *)
Definition piped_child (out err : list string) (a : popen_args) : proc :=
  {| stdout_readlines := out;
     stderr_readlines := err;
     communicate :=
       (if stdout_pipe a then Some (String.concat "" out) else None,
        if stderr_pipe a then Some (String.concat "" err) else None) |}.

(** A double put in the place of [Popen]: it accepts every call, whatever
    the keywords, and hands back such a child. *)
Definition spawned (out err : list string) : system :=
  {| Popen_accepts := fun _ => true;
     child := piped_child out err |}.

(** The keywords of a call that [Popen] has no parameter for.  Every
    [popen_args] carries [buffsize]. *)
Definition unknown_keywords (a : popen_args) : list string := ["buffsize"].

(** The library itself.  [Popen] takes no keyword it has no parameter for: a
    call with one raises [TypeError] before any process exists. *)
Definition subprocess (out err : list string) : system :=
  {| Popen_accepts := fun a =>
       match unknown_keywords a with
       | [] => true
       | _ :: _ => false
       end;
     child := piped_child out err |}.

Inductive event : Type :=
| EvPopen (a : popen_args)
| EvStdinWrite (s : string)
| EvStdinClose
| EvCommunicate (input : string)
| EvStdoutReadlines
| EvStderrReadlines
| EvTerminate.

(** Computations: the log of process calls, and a value or an exception. *)
Definition M (A : Type) : Type := (list event * outcome A)%type.

Definition ret {A : Type} (a : A) : M A := ([], Return a).

Definition raise {A : Type} (e : exn) : M A := ([], Raise e).

Definition emit (ev : event) : M unit := ([ev], Return tt).

Definition bind {A B : Type} (m : M A) (f : A -> M B) : M B :=
  match m with
  | (t, Return a) => let (t', r) := f a in ((t ++ t')%list, r)
  | (t, Raise e) => (t, Raise e)
  end.

Definition lift {A : Type} (o : outcome A) : M A := ([], o).

Definition trace {A : Type} (m : M A) : list event := fst m.

Definition result {A : Type} (m : M A) : outcome A := snd m.

Definition Popen (sys : system) (a : popen_args) : M proc :=
  bind (emit (EvPopen a))
       (fun _ => if Popen_accepts sys a then ret (sys a) else raise TypeError).

Definition stdin_write (s : string) : M unit := emit (EvStdinWrite s).

Definition stdin_close : M unit := emit EvStdinClose.

Definition do_communicate (p : proc) (input : string) : M (value * value) :=
  bind (emit (EvCommunicate input))
       (fun _ => ret (of_option (fst (communicate p)),
                      of_option (snd (communicate p)))).

Definition read_stdout (p : proc) : M (list string) :=
  bind (emit EvStdoutReadlines) (fun _ => ret (stdout_readlines p)).

Definition read_stderr (p : proc) : M (list string) :=
  bind (emit EvStderrReadlines) (fun _ => ret (stderr_readlines p)).

Definition terminate : M unit := emit EvTerminate.

(** [for x in l: body(x)] for a body that neither breaks nor returns. *)
Fixpoint for_each {A : Type} (l : list A) (body : A -> M unit) : M unit :=
  match l with
  | [] => ret tt
  | x :: l' => bind (body x) (fun _ => for_each l' body)
  end.

End Subprocess.
Export Subprocess.

Notation "x <- m ;; k" := (bind m (fun x => k))
(at level 61, m at next level, right associativity).
Notation "m ;;; k" := (bind m (fun _ => k))
(at level 61, right associativity).

(** ** remote_linux_commands.py *)

Module RemoteLinuxCommands.

Definition tty_popen_args (remote_host : string) (port : Z) : popen_args :=
  {| args := Argv ["ssh"; remote_host; "-p"; str port; "-ttt"];
     shell := false;
     stdin_pipe := true;
     stdout_pipe := false;
     stderr_pipe := false;
     universal_newlines := true;
     buffsize := 0 |}.

Definition plain_popen_args (remote_host : string) (port : Z) : popen_args :=
  {| args := CommandString ("ssh " ++ remote_host ++ " -p " ++ str port);
     shell := true;
     stdin_pipe := true;
     stdout_pipe := true;
     stderr_pipe := true;
     universal_newlines := true;
     buffsize := 0 |}.

(** The alternatives of the pattern on the output-filtering line. *)
Definition shell_warnings : list string :=
  ["Warning: no access to tty"; "Thus no job control in this shell"].

Definition is_shell_warning (line : string) : bool :=
  re_match_alternatives shell_warnings line.

(** The [for line in ...readlines()] loop: lines matched by the pattern are
    passed over, the others appended to [result]. *)
Fixpoint keep_lines (lines : list string) : list string :=
  match lines with
  | [] => []
  | line :: rest =>
      if is_shell_warning line then keep_lines rest
      else line :: keep_lines rest
  end.

Definition remote_operations (sys : system) (remote_host : string)
    (commands : list string) (port : Z) (catch_errors tty_session : bool)
    (banner_size : Z) : M value :=
  ssh_subprocess <-
    Popen sys (if tty_session then tty_popen_args remote_host port
               else plain_popen_args remote_host port) ;;
  for_each commands (fun command => stdin_write (command ++ LF)) ;;;
  if tty_session then
    re <- do_communicate ssh_subprocess ("logout" ++ LF) ;;
    let (result, error) := (re : value * value) in
    if catch_errors && truthy error then
      msg <- lift (join LF error) ;;
      raise (RemoteCommandError msg)
    else ret result
  else
    stdin_close ;;;
    lines <- read_stdout ssh_subprocess ;;
    let result := keep_lines lines in
    (if catch_errors then
       error <- read_stderr ssh_subprocess ;;
       let error := if negb (banner_size =? 0)
                    then slice_from banner_size error else error in
       if truthy (PyList error)
       then raise (RemoteCommandError (String.concat LF error))
       else ret tt
     else ret tt) ;;;
    terminate ;;;
    ret (PyList result).

End RemoteLinuxCommands.
Export RemoteLinuxCommands.

(** ** pick_unused_port.py *)

Module PickUnusedPort.

Definition command : list string := ["netstat -tulnp"].

Definition local_popen_args : popen_args :=
  {| args := Argv command;
     shell := true;
     stdin_pipe := true;
     stdout_pipe := true;
     stderr_pipe := true;
     universal_newlines := true;
     buffsize := 0 |}.

(** [host is None or 'local' in host]. *)
Definition is_local (host : option string) : bool :=
  match host with
  | None => true
  | Some h => occurs "local" h
  end.

(** The listener listing: the value bound to [results]. *)
Definition listing (sys : system) (host : option string) (ssh_port : Z)
  : M value :=
  match host with
  | Some h =>
      if occurs "local" h then
        subp <- Popen sys local_popen_args ;;
        results <- read_stdout subp ;;
        terminate ;;;
        ret (PyList results)
      else
        remote_operations sys h command ssh_port false true 0
  | None =>
      subp <- Popen sys local_popen_args ;;
      results <- read_stdout subp ;;
      terminate ;;;
      ret (PyList results)
  end.

(** The [for port in range(...)] loop with its early [return port], and
    the [return None] that follows it. *)
Fixpoint scan (results : value) (ports : list Z) : outcome (option Z) :=
  match ports with
  | [] => Return None
  | port :: rest =>
      match re_search (str port) results with
      | Raise e => Raise e
      | Return true => scan results rest
      | Return false => Return (Some port)
      end
  end.

Definition not_installed_message (host : option string) : string :=
  "netstats is not installed on the " ++ str_of_host host
    ++ " device. Please install it and try again".

(** Everything after [results] is bound. *)
Definition choose (host : option string) (results : value)
    (port_min port_max : Z) : outcome (option Z) :=
  match join ", " results with
  | Raise e => Raise e
  | Return str_results =>
      if occurs "command not found" str_results
      then Raise (NoCommandFoundError (not_installed_message host))
      else scan results (range port_min port_max)
  end.

Definition pick_port (sys : system) (host : option string)
    (port_min port_max ssh_port : Z) : M (option Z) :=
  results <- listing sys host ssh_port ;;
  lift (choose host results port_min port_max).

End PickUnusedPort.
Export PickUnusedPort.

(** ** Vocabulary of the properties *)

(** The session double that [remote_operations] talks to. *)
Definition session (sys : system) (remote_host : string) (port : Z)
    (tty_session : bool) : proc :=
  sys (if tty_session then tty_popen_args remote_host port
       else plain_popen_args remote_host port).

(** The arguments of the [Popen] call of [remote_operations]. *)
Definition ssh_popen_args (remote_host : string) (port : Z)
    (tty_session : bool) : popen_args :=
  if tty_session then tty_popen_args remote_host port
  else plain_popen_args remote_host port.

(** [communicate] answers [None] for a stream that is not piped. *)
Definition honours_pipes (sys : system) : Prop :=
  forall a : popen_args,
    (stdout_pipe a = false -> fst (communicate (sys a)) = None)
    /\ (stderr_pipe a = false -> snd (communicate (sys a)) = None).

(** What a call returns when it does not raise. *)
Definition collected_output (p : proc) (tty_session : bool) : value :=
  if tty_session then of_option (fst (communicate p))
  else PyList (keep_lines (stdout_readlines p)).

(** A listing with the SSH and HTTP listeners. *)
Definition listing_22_80 : list string :=
  ["tcp 0 0 0.0.0.0:22 0.0.0.0:* LISTEN" ++ LF;
   "tcp 0 0 0.0.0.0:80 0.0.0.0:* LISTEN" ++ LF].

(** A listing with one listener, on port 20. *)
Definition listing_20 : list string :=
  ["tcp 0 0 0.0.0.0:20 0.0.0.0:* LISTEN" ++ LF].

(** A double that accepts every call and whose [communicate] hands back
    captured text for both streams, piped or not. *)
Definition capturing (out err : string) : system :=
  {| Popen_accepts := fun _ => true;
     child := fun _ =>
       {| stdout_readlines := [];
          stderr_readlines := [];
          communicate := (Some out, Some err) |} |}.

(** The first port of [ports] whose numeral does not occur in [text]: the
    search that the documentation of [pick_port] describes. *)
Fixpoint first_unlisted (text : string) (ports : list Z) : option Z :=
  match ports with
  | [] => None
  | port :: rest =>
      if occurs (str port) text then first_unlisted text rest else Some port
  end.

(** ** conversions/str_conversions.py *)

Module StrConversions.

(** The exceptions that come out of the conversions.  [HexCodecError] stands
    for what the hex codec raises on text that is not an even number of
    hexadecimal digits ([binascii.Error] in Python 3); it is not a
    [UnicodeDecodeError]. *)
Inductive error : Type :=
| ValueError
| TypeError
| RecursionError
| HexCodecError.

Inductive answer (A : Type) : Type :=
| Ok (a : A)
| Err (e : error).
Arguments Ok {A} a.
Arguments Err {A} e.

(** [len(s)]. *)
Definition len (s : string) : Z := Z.of_nat (String.length s).

(** [s.split(sep)] for a separator of one character. *)
Fixpoint split (sep : ascii) (s : string) : list string :=
  match s with
  | EmptyString => [EmptyString]
  | String c s' =>
      if Ascii.eqb c sep then EmptyString :: split sep s'
      else match split sep s' with
           | [] => [String c EmptyString]
           | piece :: pieces => String c piece :: pieces
           end
  end.

(** [s.replace(c, '')]. *)
Fixpoint remove_char (c : ascii) (s : string) : string :=
  match s with
  | EmptyString => EmptyString
  | String d s' =>
      if Ascii.eqb d c then remove_char c s' else String d (remove_char c s')
  end.

(** ['0' * k]: a count below one gives the empty string. *)
Definition zeros (k : Z) : string :=
  string_of_list_ascii (repeat "0"%char (Z.to_nat k)).

(** The character of a digit: [0-9], then [a-f] or [A-F]. *)
Definition digit_char (upper : bool) (d : Z) : ascii :=
  ascii_of_nat
    (Z.to_nat (if d <? 10 then 48 + d
               else if upper then 55 + d else 87 + d)).

(** The digits of [n >= 0] in [base], most significant first, without
    leading zeros ("0" for zero), as [bin], [hex] and the [X] conversion
    write them. *)
Fixpoint digits_fuel (fuel : nat) (base : Z) (upper : bool) (n : Z) : string :=
  match fuel with
  | O => EmptyString
  | S fuel' =>
      if n <? base then String (digit_char upper n) EmptyString
      else digits_fuel fuel' base upper (n / base)
             ++ String (digit_char upper (n mod base)) EmptyString
  end.

Definition digits (base : Z) (upper : bool) (n : Z) : string :=
  digits_fuel (S (Z.to_nat (Z.log2 n))) base upper n.

(** [bin(n)]. *)
Definition bin (n : Z) : string :=
  (if n <? 0 then "-" else "") ++ "0b" ++ digits 2 false (Z.abs n).

(** ['%0*X' % (width, n)] for a width that is not negative: upper-case
    hexadecimal, filled with zeros after the sign up to [width]
    characters. *)
Definition format_0X (width n : Z) : string :=
  if n <? 0
  then "-" ++ zeros (width - 1 - len (digits 16 true (- n)))
           ++ digits 16 true (- n)
  else zeros (width - len (digits 16 true n)) ++ digits 16 true n.

(** The built-in [int(s, base)], a parameter of the conversions. *)
Definition int_builtin : Type := string -> Z -> answer Z.

Definition _strip_binary (binary : string) : string :=
  remove_char " " (List.last (split "b" binary) EmptyString).

Definition _strip_hex (hex_value : string) : string :=
  remove_char " " (List.last (split "x" hex_value) EmptyString).

Definition binary_to_hex (int_ : int_builtin) (binary : string)
  : answer string :=
  let stripped_binary := _strip_binary binary in
  match int_ stripped_binary 2 with
  | Err e => Err e
  | Ok n => Ok (format_0X ((len stripped_binary + 3) / 4) n)
  end.

Definition hex_to_binary (int_ : int_builtin) (hex_value : string)
  : answer string :=
  let stripped_hex := _strip_hex hex_value in
  let hex_length := len stripped_hex in
  match int_ stripped_hex 16 with
  | Err e => Err e
  | Ok n =>
      let binary := _strip_binary (bin n) in
      let binary_len := len binary in
      if negb (binary_len =? hex_length * 4)
      then Ok (zeros (hex_length * 4 - binary_len) ++ binary)
      else Ok binary
  end.

(** [hex(n)]. *)
Definition hex (n : Z) : string :=
  (if n <? 0 then "-" else "") ++ "0x" ++ digits 16 false (Z.abs n).


Definition decimal_to_hex (int_ : int_builtin) (decimal : string)
  : answer string :=
  match int_ decimal 10 with
  | Err e => Err e
  | Ok n => Ok (_strip_hex (hex n))
  end.

Definition hex_to_decimal (int_ : int_builtin) (hex_value : string)
  : answer string :=
  match int_ (_strip_hex hex_value) 16 with
  | Err e => Err e
  | Ok n => Ok (str n)
  end.

(** The value of a hexadecimal digit. *)
Definition digit_value (c : ascii) : option Z :=
  let n := Z.of_nat (nat_of_ascii c) in
  if (48 <=? n) && (n <=? 57) then Some (n - 48)
  else if (97 <=? n) && (n <=? 102) then Some (n - 87)
  else if (65 <=? n) && (n <=? 70) then Some (n - 55)
  else None.

(** [codecs.decode(s, 'hex')]: two hexadecimal digits per byte. *)
Fixpoint hex_decode (s : string) : answer string :=
  match s with
  | EmptyString => Ok EmptyString
  | String _ EmptyString => Err HexCodecError
  | String a (String b rest) =>
      match digit_value a, digit_value b, hex_decode rest with
      | Some x, Some y, Ok bytes =>
          Ok (String (ascii_of_nat (Z.to_nat (16 * x + y))) bytes)
      | _, _, _ => Err HexCodecError
      end
  end.

(** Whether [codecs.decode(bytes, 'ascii')] succeeds: no byte above 127. *)
Fixpoint is_ascii (bytes : string) : bool :=
  match bytes with
  | EmptyString => true
  | String c rest => (Z.of_nat (nat_of_ascii c) <? 128) && is_ascii rest
  end.

(** [[s[i:i+2] for i in range(0, len(s), 2)]]. *)
Fixpoint groups_of_two (s : string) : list string :=
  match s with
  | EmptyString => []
  | String a EmptyString => [String a EmptyString]
  | String a (String b rest) =>
      String a (String b EmptyString) :: groups_of_two rest
  end.

(** The body of the loop of [decode_ascii_from_hex] for one grouping.  When
    the bytes are not ASCII the handler evaluates [hex_list[i] - '0'], a
    subtraction of two strings, which raises [TypeError]. *)
Definition decode_grouping (grouping : string) : answer string :=
  match hex_decode grouping with
  | Err e => Err e
  | Ok bytes => if is_ascii bytes then Ok bytes else Err TypeError
  end.

(** The loop over [enumerate(hex_list)], replacing the entries in order. *)
Fixpoint decode_groupings (hex_list : list string) : answer (list string) :=
  match hex_list with
  | [] => Ok []
  | grouping :: rest =>
      match decode_grouping grouping with
      | Err e => Err e
      | Ok decoded =>
          match decode_groupings rest with
          | Err e => Err e
          | Ok decoded_rest => Ok (decoded :: decoded_rest)
          end
      end
  end.

Definition decode_ascii_from_hex (hex_value : string) : answer string :=
  let stripped_hex := _strip_hex hex_value in
  let hex_list := groups_of_two stripped_hex in
  match decode_groupings hex_list with
  | Err e => Err e
  | Ok hex_list' => Ok (String.concat "" hex_list')
  end.

Definition decode_ascii_from_binary (int_ : int_builtin) (binary : string)
  : answer string :=
  match binary_to_hex int_ binary with
  | Err e => Err e
  | Ok hex_value => decode_ascii_from_hex hex_value
  end.

(** [encode_ascii_to_binary] calls itself on its own argument before doing
    anything else; [depth] is the number of frames the interpreter still
    allows, and running out of them is a [RecursionError]. *)
Fixpoint encode_ascii_to_binary (int_ : int_builtin) (depth : nat)
    (ascii_value : string) : answer string :=
  match depth with
  | O => Err RecursionError
  | S depth' =>
      match encode_ascii_to_binary int_ depth' ascii_value with
      | Err e => Err e
      | Ok hex_value => hex_to_binary int_ hex_value
      end
  end.

End StrConversions.

(** ** Vocabulary for the conversions *)

Module ConversionTerms.
Import StrConversions.

Definition digit_in (base : Z) (c : ascii) : bool :=
  match digit_value c with
  | Some d => d <? base
  | None => false
  end.

(** Every character of [s] is a digit of [base]. *)
Fixpoint all_digits (base : Z) (s : string) : bool :=
  match s with
  | EmptyString => true
  | String c s' => digit_in base c && all_digits base s'
  end.

Definition digit_or_zero (c : ascii) : Z :=
  match digit_value c with
  | Some d => d
  | None => 0
  end.

(** The number that the digits of [s] write in [base], continuing [acc]. *)
Fixpoint value_from (base acc : Z) (s : string) : Z :=
  match s with
  | EmptyString => acc
  | String c s' => value_from base (acc * base + digit_or_zero c) s'
  end.

Definition digits_value (base : Z) (s : string) : Z := value_from base 0 s.

(** What is assumed of [int(s, base)]: on a non-empty string of digits of
    base 2 or 16 it returns the number written. *)
Definition int_reads_digits (int_ : int_builtin) : Prop :=
  forall (base : Z) (s : string),
    base = 2 \/ base = 16 ->
    s <> EmptyString ->
    all_digits base s = true ->
    int_ s base = Ok (digits_value base s).

(** An [int] for the examples: plain digit strings only. *)
Definition int_plain : int_builtin :=
  fun s base =>
    match s with
    | EmptyString => Err ValueError
    | String _ _ =>
        if all_digits base s then Ok (digits_value base s) else Err ValueError
    end.


(** The [w] low digits of [n] in [base], most significant first. *)
Fixpoint fixed (base : Z) (upper : bool) (w : nat) (n : Z) : string :=
  match w with
  | O => EmptyString
  | S w' =>
      fixed base upper w' (n / base)
        ++ String (digit_char upper (n mod base)) EmptyString
  end.

(** Every digit of [s] written again in the chosen case. *)
Fixpoint canon (upper : bool) (s : string) : string :=
  match s with
  | EmptyString => EmptyString
  | String c s' => String (digit_char upper (digit_or_zero c)) (canon upper s')
  end.

(** [c.upper()] for an ASCII character. *)
Definition upper_char (c : ascii) : ascii :=
  let n := nat_of_ascii c in
  if (Nat.leb 97 n && Nat.leb n 122)%bool then ascii_of_nat (n - 32) else c.

(** [s.upper()] for ASCII text. *)
Fixpoint to_upper (s : string) : string :=
  match s with
  | EmptyString => EmptyString
  | String c s' => String (upper_char c) (to_upper s')
  end.

(** Two hexadecimal digits for every byte of [bytes]. *)
Fixpoint hex_of (upper : bool) (bytes : string) : string :=
  match bytes with
  | EmptyString => EmptyString
  | String c rest =>
      fixed 16 upper 2 (Z.of_nat (nat_of_ascii c)) ++ hex_of upper rest
  end.

(** Eight binary digits for every byte of [bytes]. *)
Fixpoint bits_of (bytes : string) : string :=
  match bytes with
  | EmptyString => EmptyString
  | String c rest =>
      fixed 2 false 8 (Z.of_nat (nat_of_ascii c)) ++ bits_of rest
  end.

(** [c] does not occur in [s]. *)
Fixpoint free_of (c : ascii) (s : string) : bool :=
  match s with
  | EmptyString => true
  | String d s' => negb (Ascii.eqb d c) && free_of c s'
  end.

End ConversionTerms.

(** ** Facts about the primitives *)

Section StringFacts.

Lemma prefix_app (p b : string) : String.prefix p (p ++ b) = true.
Proof.
  induction p as [|c p IH]; simpl.
  - destruct b; reflexivity.
  - destruct (ascii_dec c c) as [_|ne]; [exact IH | now destruct ne].
Qed.

Lemma prefix_inv (p s : string) :
  String.prefix p s = true -> exists b, s = p ++ b.
Proof.
  revert s; induction p as [|c p IH]; intros s H.
  - exists s; reflexivity.
  - destruct s as [|d s]; simpl in H; [discriminate|].
    destruct (ascii_dec c d) as [->|_]; [|discriminate].
    destruct (IH s H) as [b ->]. exists b; reflexivity.
Qed.

Lemma prefix_cons (a c : ascii) (p s : string) :
  String.prefix (String a p) (String c s)
  = if ascii_dec a c then String.prefix p s else false.
Proof. reflexivity. Qed.

Lemma occurs_cons (p : string) (c : ascii) (s : string) :
  occurs p (String c s)
  = if String.prefix p (String c s) then true else occurs p s.
Proof. reflexivity. Qed.

Lemma occurs_prefix (p s : string) :
  String.prefix p s = true -> occurs p s = true.
Proof.
  intros H. destruct s; cbn [occurs]; rewrite H; reflexivity.
Qed.

Lemma occurs_app (a p b : string) : occurs p (a ++ p ++ b) = true.
Proof.
  induction a as [|c a IH].
  - change (occurs p (p ++ b) = true). apply occurs_prefix, prefix_app.
  - cbn [append occurs].
    destruct (String.prefix p (String c (a ++ p ++ b))); [reflexivity|exact IH].
Qed.

Lemma occurs_inv (p s : string) :
  occurs p s = true -> exists a b, s = a ++ p ++ b.
Proof.
  induction s as [|c s IH]; cbn [occurs]; intros H.
  - destruct (String.prefix p "") eqn:E; [|discriminate].
    apply prefix_inv in E. destruct E as [b E]. exists "", b. exact E.
  - destruct (String.prefix p (String c s)) eqn:E.
    + apply prefix_inv in E. destruct E as [b E]. exists "", b. exact E.
    + destruct (IH H) as (a & b & ->). exists (String c a), b. reflexivity.
Qed.

(** [occurs] decides the substring relation. *)
Lemma occurs_iff (p s : string) :
  occurs p s = true <-> exists a b, s = a ++ p ++ b.
Proof.
  split; [apply occurs_inv|].
  intros (a & b & ->). apply occurs_app.
Qed.

End StringFacts.

(** ** Facts about computations *)

Section MonadFacts.

Context {A B : Type}.

Lemma result_bind (m : M A) (f : A -> M B) :
  result (bind m f) =
  match result m with
  | Return a => result (f a)
  | Raise e => Raise e
  end.
Proof.
  destruct m as [t [a|e]]; cbn; [|reflexivity].
  destruct (f a); reflexivity.
Qed.

Lemma trace_bind (m : M A) (f : A -> M B) :
  trace (bind m f) =
  match result m with
  | Return a => (trace m ++ trace (f a))%list
  | Raise _ => trace m
  end.
Proof.
  destruct m as [t [a|e]]; cbn; [|reflexivity].
  destruct (f a); reflexivity.
Qed.

Lemma M_eq (m m' : M A) :
  trace m = trace m' -> result m = result m' -> m = m'.
Proof.
  destruct m, m'; cbn; intros; subst; reflexivity.
Qed.

End MonadFacts.

(** The loop that feeds the commands to the session. *)
Lemma for_each_stdin_write (commands : list string) :
for_each commands (fun command => stdin_write (command ++ LF)) =
(map (fun command => EvStdinWrite (command ++ LF)) commands, Return tt).
Proof.
induction commands as [|c cs IH]; [reflexivity|].
cbn [for_each map]. rewrite IH. reflexivity.
Qed.

Lemma keep_lines_filter (lines : list string) :
keep_lines lines = filter (fun line => negb (is_shell_warning line)) lines.
Proof.
induction lines as [|l ls IH]; [reflexivity|].
cbn [keep_lines filter]. destruct (is_shell_warning l); cbn; rewrite IH; reflexivity.
Qed.

Lemma honours_pipes_spawned (out err : list string) :
  honours_pipes (spawned out err).
Proof. intros a. split; intros H; cbn; rewrite H; reflexivity. Qed.

Lemma honours_pipes_subprocess (out err : list string) :
  honours_pipes (subprocess out err).
Proof. intros a. split; intros H; cbn; rewrite H; reflexivity. Qed.

(** ** [remote_operations] in closed form *)

Section RemoteOperationsEquations.

Variables (sys : system) (remote_host : string) (commands : list string)
          (port : Z) (catch_errors : bool) (banner_size : Z).

Let written : list event :=
  map (fun command => EvStdinWrite (command ++ LF)) commands.

(** When [Popen] rejects the call nothing else happens. *)
Lemma remote_operations_rejected (tty_session : bool) :
  Popen_accepts sys (ssh_popen_args remote_host port tty_session) = false ->
  remote_operations sys remote_host commands port catch_errors tty_session
    banner_size
  = ([EvPopen (ssh_popen_args remote_host port tty_session)], Raise TypeError).
Proof.
  intros H. unfold remote_operations, Popen.
  fold (ssh_popen_args remote_host port tty_session).
  cbn [emit ret bind app]. rewrite H. reflexivity.
Qed.

Lemma remote_operations_tty :
  Popen_accepts sys (tty_popen_args remote_host port) = true ->
  let p := sys (tty_popen_args remote_host port) in
  let error := of_option (snd (communicate p)) in
  remote_operations sys remote_host commands port catch_errors true banner_size =
  ((EvPopen (tty_popen_args remote_host port) :: written
      ++ [EvCommunicate ("logout" ++ LF)])%list,
   if catch_errors && truthy error
   then match join LF error with
        | Return msg => Raise (RemoteCommandError msg)
        | Raise e => Raise e
        end
   else Return (of_option (fst (communicate p)))).
Proof.
  intros H. cbv zeta. unfold remote_operations, Popen.
  cbn [emit ret bind app]. rewrite H.
  cbn [emit ret bind app]. rewrite for_each_stdin_write.
  cbn [bind do_communicate emit ret app]. fold written.
  destruct (catch_errors && truthy _); cbn; [|reflexivity].
  destruct (join LF _); cbn; rewrite ?app_nil_r; reflexivity.
Qed.

Lemma remote_operations_plain :
  Popen_accepts sys (plain_popen_args remote_host port) = true ->
  let p := sys (plain_popen_args remote_host port) in
  let error := if negb (banner_size =? 0)
               then slice_from banner_size (stderr_readlines p)
               else stderr_readlines p in
  remote_operations sys remote_host commands port catch_errors false banner_size =
  if catch_errors then
    if truthy (PyList error) then
      ((EvPopen (plain_popen_args remote_host port) :: written
          ++ [EvStdinClose; EvStdoutReadlines; EvStderrReadlines])%list,
       Raise (RemoteCommandError (String.concat LF error)))
    else
      ((EvPopen (plain_popen_args remote_host port) :: written
          ++ [EvStdinClose; EvStdoutReadlines; EvStderrReadlines; EvTerminate])%list,
       Return (PyList (keep_lines (stdout_readlines p))))
  else
    ((EvPopen (plain_popen_args remote_host port) :: written
        ++ [EvStdinClose; EvStdoutReadlines; EvTerminate])%list,
     Return (PyList (keep_lines (stdout_readlines p)))).
Proof.
  intros H. cbv zeta. unfold remote_operations, Popen.
  cbn [emit ret bind app]. rewrite H.
  cbn [emit ret bind app]. rewrite for_each_stdin_write.
  cbn [bind stdin_close read_stdout read_stderr terminate emit ret app].
  fold written.
  destruct catch_errors; cbn [bind emit ret app]; [|reflexivity].
  match goal with |- context [truthy ?v] => destruct (truthy v) end;
    cbn; reflexivity.
Qed.

End RemoteOperationsEquations.


Lemma in_written (e : event) (commands : list string) :
  In e (map (fun command => EvStdinWrite (command ++ LF)) commands) ->
  exists command, e = EvStdinWrite (command ++ LF).
Proof.
  intros H. apply in_map_iff in H. destruct H as (c & <- & _). now exists c.
Qed.

(** The error lines that are left after the banner, for a [banner_size] that
    is not negative. *)
Lemma banner_slice (k : Z) (err : list string) :
  0 <= k ->
  (if negb (k =? 0) then slice_from k err else err) = skipn (Z.to_nat k) err.
Proof.
  intros Hk. destruct (Z.eqb_spec k 0) as [->|Hne]; cbn [negb].
  - reflexivity.
  - unfold slice_from. destruct (Z.leb_spec 0 k); [reflexivity|lia].
Qed.

(** ** Properties of [remote_operations] *)

(** C7 at a call with two commands and error checking on.  With the library
    itself [Popen] rejects the keyword [buffsize]: the call made on the
    library is that [Popen] alone, nothing is written to a session and the
    call raises [TypeError] instead of returning output.  And where a double
    stands in for [Popen], the session of a tty-mode call is handed three
    lines, the two commands and then "logout" through [communicate]. *)
Theorem remote_operations_popen_rejected :
  remote_operations (subprocess ["file.txt" ++ LF] []) "web1"
    ["cd /tmp"; "ls"] 22 true false 0
  = ([EvPopen (plain_popen_args "web1" 22)], Raise TypeError)
  /\ remote_operations (subprocess ["file.txt" ++ LF] []) "web1"
       ["cd /tmp"; "ls"] 22 true true 0
     = ([EvPopen (tty_popen_args "web1" 22)], Raise TypeError)
  /\ trace (remote_operations (spawned ["file.txt" ++ LF] []) "web1"
              ["cd /tmp"; "ls"] 22 true true 0)
     = [EvPopen (tty_popen_args "web1" 22);
        EvStdinWrite ("cd /tmp" ++ LF);
        EvStdinWrite ("ls" ++ LF);
        EvCommunicate ("logout" ++ LF)].
Proof. repeat split; reflexivity. Qed.

(** C10.  With error checking off no call raises [RemoteCommandError], in
    either mode and whatever the session writes to its error stream; and in
    non-tty mode [stderr.readlines()] is not among the calls made. *)
Theorem remote_operations_unchecked_never_raises :
  forall (sys : system) (remote_host : string) (commands : list string)
         (port : Z) (tty_session : bool) (banner_size : Z),
    (forall msg,
       result (remote_operations sys remote_host commands port false
                 tty_session banner_size)
       <> Raise (RemoteCommandError msg))
    /\ ~ In EvStderrReadlines
         (trace (remote_operations sys remote_host commands port false false
                   banner_size)).
Proof.
  intros sys h cmds port tty k. split.
  - intros msg.
    destruct (Popen_accepts sys (ssh_popen_args h port tty)) eqn:A.
    + destruct tty.
      * rewrite remote_operations_tty by exact A. discriminate.
      * rewrite remote_operations_plain by exact A. discriminate.
    + rewrite (remote_operations_rejected _ _ _ _ _ _ _ A). discriminate.
  - destruct (Popen_accepts sys (ssh_popen_args h port false)) eqn:A.
    + rewrite remote_operations_plain by exact A. cbn [trace fst].
      intros [H | H]; [discriminate|].
      apply in_app_or in H. destruct H as [H | H].
      * apply in_written in H. destruct H as [c H]. discriminate.
      * cbn in H. intuition discriminate.
    + rewrite (remote_operations_rejected _ _ _ _ _ _ _ A). cbn.
      intuition discriminate.
Qed.

(** What a call in non-tty mode returns when a double accepts the [Popen]
    call: the lines of the output stream without those that the pattern
    matches at their first character. *)
Lemma remote_operations_output_filter (sys : system) (remote_host : string)
    (commands : list string) (port : Z) (catch_errors : bool)
    (banner_size : Z) (out : value) :
  result (remote_operations sys remote_host commands port catch_errors false
            banner_size) = Return out ->
  out = PyList (filter (fun line => negb (is_shell_warning line))
                  (stdout_readlines (session sys remote_host port false))).
Proof.
  intros H.
  destruct (Popen_accepts sys (ssh_popen_args remote_host port false)) eqn:A.
  - rewrite remote_operations_plain in H by exact A.
    rewrite <- keep_lines_filter. unfold session.
    destruct catch_errors;
      [match type of H with context [truthy ?v] => destruct (truthy v) end|];
      cbn [result snd] in H; congruence.
  - rewrite (remote_operations_rejected _ _ _ _ _ _ _ A) in H. discriminate H.
Qed.


(** C4.  For a [banner_size] [k] that is not negative and a system that
    honours the pipes, the first [k] lines of the error stream never get
    into the message of a [RemoteCommandError]: in non-tty mode with error
    checking on the call stops with [TypeError] when [Popen] rejects it, and
    otherwise the lines after the first [k] decide the outcome alone (none
    left: the output is returned; some left: [RemoteCommandError] with
    exactly those lines, joined by line feeds, as the message); in tty mode
    no [RemoteCommandError] is raised. *)
Theorem remote_operations_banner_discarded_by_position :
  forall (sys : system) (remote_host : string) (commands : list string)
         (port : Z) (k : Z),
    0 <= k ->
    honours_pipes sys ->
    let p := session sys remote_host port false in
    let kept := skipn (Z.to_nat k) (stderr_readlines p) in
    result (remote_operations sys remote_host commands port true false k)
    = (if Popen_accepts sys (plain_popen_args remote_host port)
       then match kept with
            | [] => Return (collected_output p false)
            | _ :: _ => Raise (RemoteCommandError (String.concat LF kept))
            end
       else Raise TypeError)
    /\ forall msg,
         result (remote_operations sys remote_host commands port true true k)
         <> Raise (RemoteCommandError msg).
Proof.
  intros sys h cmds port k Hk Hp p kept. split.
  - destruct (Popen_accepts sys (plain_popen_args h port)) eqn:A.
    + rewrite remote_operations_plain by exact A.
      fold (session sys h port false). fold p.
      rewrite (banner_slice _ _ Hk). fold kept. destruct kept; reflexivity.
    + rewrite (remote_operations_rejected _ _ _ _ _ _ false A). reflexivity.
  - intros msg.
    destruct (Popen_accepts sys (tty_popen_args h port)) eqn:A.
    + rewrite remote_operations_tty by exact A. cbn [result snd].
      destruct (Hp (tty_popen_args h port)) as [_ E].
      rewrite (E eq_refl). cbn. discriminate.
    + rewrite (remote_operations_rejected _ _ _ _ _ _ true A). discriminate.
Qed.

Lemma remote_operations_banner_discarded_by_position_witness :
  result (remote_operations
            (subprocess [] ["Welcome to web1" ++ LF; "ls: cannot access x" ++ LF])
            "web1" ["ls x"] 22 true false 1)
  = Raise TypeError
  /\ result (remote_operations
               (spawned [] ["Welcome to web1" ++ LF; "ls: cannot access x" ++ LF])
               "web1" ["ls x"] 22 true false 1)
     = Raise (RemoteCommandError ("ls: cannot access x" ++ LF)).
Proof.
  split.
  - apply (remote_operations_banner_discarded_by_position
             (subprocess [] ["Welcome to web1" ++ LF; "ls: cannot access x" ++ LF])
             "web1" ["ls x"] 22 1).
    + lia.
    + intros a. split; intros H; cbn; rewrite H; reflexivity.
  - apply (remote_operations_banner_discarded_by_position
             (spawned [] ["Welcome to web1" ++ LF; "ls: cannot access x" ++ LF])
             "web1" ["ls x"] 22 1).
    + lia.
    + intros a. split; intros H; cbn; rewrite H; reflexivity.
Defined.

(** C2 at two tty-mode sessions with error checking on.  First, a session
    read through the pipes that the tty-mode [Popen] call requests (standard
    input only): the child writes a line to its error stream, [communicate]
    yields [None] for it, and the call returns without raising.  Second, a
    session whose [communicate] does hand back the error text "err": the call
    raises, but the message is the text taken apart character by character,
    and "err" does not occur in it. *)
Theorem remote_operations_tty_error_text_lost :
  result (remote_operations
            (spawned [] ["ls: cannot access x" ++ LF]) "web1" ["ls x"] 22
            true true 0)
  = Return PyNone
  /\ result (remote_operations (capturing "" "err") "web1" ["ls x"] 22
               true true 0)
     = Raise (RemoteCommandError ("e" ++ LF ++ "r" ++ LF ++ "r"))
  /\ occurs "err" ("e" ++ LF ++ "r" ++ LF ++ "r") = false.
Proof. repeat split; reflexivity. Qed.

(** ** Properties of [pick_port] *)

Lemma result_pick_port (sys : system) (host : option string)
    (port_min port_max ssh_port : Z) :
  result (pick_port sys host port_min port_max ssh_port) =
  match result (listing sys host ssh_port) with
  | Return results => choose host results port_min port_max
  | Raise e => Raise e
  end.
Proof. unfold pick_port. rewrite result_bind. reflexivity. Qed.

Lemma trace_pick_port (sys : system) (host : option string)
    (port_min port_max ssh_port : Z) :
  trace (pick_port sys host port_min port_max ssh_port)
  = trace (listing sys host ssh_port).
Proof.
  unfold pick_port. rewrite trace_bind.
  destruct (result (listing sys host ssh_port)); [apply app_nil_r | reflexivity].
Qed.

Lemma listing_local (sys : system) (host : option string) (ssh_port : Z) :
  is_local host = true ->
  listing sys host ssh_port =
  if Popen_accepts sys local_popen_args
  then ([EvPopen local_popen_args; EvStdoutReadlines; EvTerminate],
        Return (PyList (stdout_readlines (sys local_popen_args))))
  else ([EvPopen local_popen_args], Raise TypeError).
Proof.
  unfold is_local, listing, Popen.
  destruct host as [h|]; [intros ->|intros _];
    cbn [emit ret bind app];
    destruct (Popen_accepts sys local_popen_args); reflexivity.
Qed.

Lemma listing_remote (sys : system) (h : string) (ssh_port : Z) :
  occurs "local" h = false ->
  listing sys (Some h) ssh_port =
  if Popen_accepts sys (tty_popen_args h ssh_port)
  then ([EvPopen (tty_popen_args h ssh_port);
         EvStdinWrite ("netstat -tulnp" ++ LF);
         EvCommunicate ("logout" ++ LF)],
        Return (of_option (fst (communicate (sys (tty_popen_args h ssh_port))))))
  else ([EvPopen (tty_popen_args h ssh_port)], Raise TypeError).
Proof.
  intros H. unfold listing. rewrite H.
  destruct (Popen_accepts sys (tty_popen_args h ssh_port)) eqn:A.
  - rewrite remote_operations_tty by exact A. reflexivity.
  - apply (remote_operations_rejected _ _ _ _ _ _ true A).
Qed.

(** Fetching the listing raises nothing but the [TypeError] of a rejected
    [Popen] call. *)
Lemma listing_raises (sys : system) (host : option string) (ssh_port : Z)
    (e : exn) :
  result (listing sys host ssh_port) = Raise e -> e = TypeError.
Proof.
  destruct (is_local host) eqn:E.
  - rewrite (listing_local _ _ _ E).
    destruct (Popen_accepts sys local_popen_args); cbn; congruence.
  - destruct host as [h|]; [|discriminate]. cbn [is_local] in E.
    rewrite (listing_remote _ _ _ E).
    destruct (Popen_accepts sys (tty_popen_args h ssh_port)); cbn; congruence.
Qed.

Lemma scan_raises (results : value) (ports : list Z) (e : exn) :
  scan results ports = Raise e -> e = TypeError.
Proof.
  induction ports as [|port rest IH]; cbn [scan]; [discriminate|].
  destruct results; cbn [re_search]; try congruence;
    destruct (occurs _ _); [exact IH | discriminate].
Qed.

Lemma choose_raises (host : option string) (results : value)
    (port_min port_max : Z) (e : exn) :
  choose host results port_min port_max = Raise e ->
  e = TypeError \/ e = NoCommandFoundError (not_installed_message host).
Proof.
  unfold choose. destruct (join ", " results) as [text|e'] eqn:J.
  - destruct (occurs "command not found" text).
    + intros [= <-]. right; reflexivity.
    + intros H. left. exact (scan_raises _ _ _ H).
  - destruct results; cbn in J; try discriminate.
    injection J as <-. intros [= <-]. left; reflexivity.
Qed.

Lemma pick_port_raises (sys : system) (host : option string)
    (port_min port_max ssh_port : Z) (e : exn) :
  result (pick_port sys host port_min port_max ssh_port) = Raise e ->
  e = TypeError \/ e = NoCommandFoundError (not_installed_message host).
Proof.
  rewrite result_pick_port.
  destruct (result (listing sys host ssh_port)) as [results|e'] eqn:L.
  - apply choose_raises.
  - intros [= <-]. left. exact (listing_raises _ _ _ _ L).
Qed.

(** On a listing that is a list of lines (what [readlines()] yields), a
    non-empty range and no "command not found" in the joined text, the first
    [re.search] is handed the list and the call ends in a [TypeError]. *)
Lemma choose_list_type_error (host : option string) (lines : list string)
    (port_min port_max : Z) :
  occurs "command not found" (String.concat ", " lines) = false ->
  port_min < port_max ->
  choose host (PyList lines) port_min port_max = Raise TypeError.
Proof.
  intros Hnf Hlt. unfold choose, join. rewrite Hnf. unfold range.
  destruct (Z.to_nat (port_max - port_min)) eqn:E; [lia|]. reflexivity.
Qed.

(** C1 at the listing with the two listeners and the range [20, 25), on the
    local branch.  The joined text contains ":22" and ":80" and none of the
    numerals 20, 21, 23 and 24, so the first unlisted port is 20; the call
    does not return it: it raises [TypeError], because [re.search] is
    given the list [results] rather than the joined text [str_results]. *)
Theorem pick_port_listing_22_80_type_error :
  let text := String.concat ", " listing_22_80 in
  join ", " (PyList listing_22_80) = Return text
  /\ occurs ":22" text = true
  /\ occurs ":80" text = true
  /\ first_unlisted text (range 20 25) = Some 20
  /\ result (pick_port (spawned listing_22_80 []) None 20 25 22)
     = Raise TypeError.
Proof. repeat split; reflexivity. Qed.

(** C5 at a listing that says "command not found".  With the library itself
    [pick_port] raises [TypeError], not [NoCommandFoundError], for the local
    host and for a remote one alike: its [Popen] call is rejected for the
    keyword [buffsize] before any listing is read.  That holds for every
    listing, host and range. *)
Theorem pick_port_not_found_type_error :
  let line := "/bin/sh: netstat: command not found" ++ LF in
  occurs "command not found" (String.concat ", " [line]) = true
  /\ pick_port (subprocess [line] []) None 8000 8100 22
     = ([EvPopen local_popen_args], Raise TypeError)
  /\ pick_port (subprocess [line] []) (Some "web1") 8000 8100 22
     = ([EvPopen (tty_popen_args "web1" 22)], Raise TypeError)
  /\ forall (out err : list string) (host : option string)
            (port_min port_max ssh_port : Z),
       result (pick_port (subprocess out err) host port_min port_max ssh_port)
       = Raise TypeError.
Proof.
  split; [reflexivity|]. split; [reflexivity|]. split; [reflexivity|].
  intros out err host lo hi ssh. rewrite result_pick_port.
  destruct (is_local host) eqn:E.
  - rewrite (listing_local _ _ _ E). reflexivity.
  - destruct host as [h|]; [|discriminate]. cbn [is_local] in E.
    rewrite (listing_remote _ _ _ E). reflexivity.
Qed.

(** C6 at the listing with the listener on port 20 and the range [20, 21),
    on the local branch: the numeral of the only port of the range occurs in
    the joined text, and the call raises [TypeError] instead of returning
    [None] (the search is given the list [results], as for C1).  The second
    half of the claim holds: no call of [pick_port] raises [NoPortsFound]. *)
Theorem pick_port_all_listed_type_error :
  first_unlisted (String.concat ", " listing_20) (range 20 21) = None
  /\ result (pick_port (spawned listing_20 []) None 20 21 22) = Raise TypeError
  /\ forall (sys : system) (host : option string)
            (port_min port_max ssh_port : Z) (msg : string),
       result (pick_port sys host port_min port_max ssh_port)
       <> Raise (NoPortsFound msg).
Proof.
  split; [reflexivity|]. split; [reflexivity|].
  intros sys host lo hi ssh msg H.
  apply pick_port_raises in H. destruct H; discriminate.
Qed.

(** C8.  The outcome of [pick_port] is decided by the host, the range and
    the listing: two calls with the same host and range whose sessions hand
    back the same listing end the same way, with the same port, the same
    [None] or the same exception, whatever else differs between the two
    systems and whichever SSH ports are used. *)
Theorem pick_port_deterministic :
  forall (sys1 sys2 : system) (host : option string)
         (port_min port_max ssh_port1 ssh_port2 : Z),
    result (listing sys1 host ssh_port1) = result (listing sys2 host ssh_port2) ->
    result (pick_port sys1 host port_min port_max ssh_port1)
    = result (pick_port sys2 host port_min port_max ssh_port2).
Proof.
  intros sys1 sys2 host lo hi ssh1 ssh2 H.
  rewrite !result_pick_port, H. reflexivity.
Qed.

Lemma pick_port_deterministic_witness :
  result (pick_port (capturing ("tcp 0 0 0.0.0.0:8000 0.0.0.0:* LISTEN" ++ LF) "")
            (Some "web1") 8000 8010 22)
  = result (pick_port (capturing ("tcp 0 0 0.0.0.0:8000 0.0.0.0:* LISTEN" ++ LF)
                         "Connection to web1 closed.")
              (Some "web1") 8000 8010 2222).
Proof.
  apply (pick_port_deterministic
           (capturing ("tcp 0 0 0.0.0.0:8000 0.0.0.0:* LISTEN" ++ LF) "")
           (capturing ("tcp 0 0 0.0.0.0:8000 0.0.0.0:* LISTEN" ++ LF)
              "Connection to web1 closed.")
           (Some "web1") 8000 8010 22 2222).
  reflexivity.
Defined.

(** C9.  The first call that [pick_port] makes is the [Popen] of the local
    netstat subprocess exactly when the host is [None] or has "local"
    somewhere inside it, as in "mylocaldomain.com"; for every other host it
    is the [Popen] of the SSH session of [remote_operations]. *)
Theorem pick_port_local_branch_iff :
  forall (sys : system) (host : option string) (port_min port_max ssh_port : Z),
    (hd_error (trace (pick_port sys host port_min port_max ssh_port))
     = Some (EvPopen local_popen_args)
     <-> host = None \/ exists h a b, host = Some h /\ h = a ++ "local" ++ b)
    /\ (forall h, host = Some h ->
          (hd_error (trace (pick_port sys host port_min port_max ssh_port))
           = Some (EvPopen (tty_popen_args h ssh_port))
           <-> ~ exists a b, h = a ++ "local" ++ b)).
Proof.
  intros sys host lo hi ssh. rewrite trace_pick_port.
  assert (HL : is_local host = true ->
               hd_error (trace (listing sys host ssh))
               = Some (EvPopen local_popen_args)).
  { intros E. rewrite (listing_local _ _ _ E).
    destruct (Popen_accepts sys local_popen_args); reflexivity. }
  assert (HR : forall h, host = Some h -> occurs "local" h = false ->
               hd_error (trace (listing sys host ssh))
               = Some (EvPopen (tty_popen_args h ssh))).
  { intros h -> E. rewrite (listing_remote _ _ _ E).
    destruct (Popen_accepts sys (tty_popen_args h ssh)); reflexivity. }
  split.
  - destruct (is_local host) eqn:E.
    + rewrite (HL eq_refl). split; [intros _ | reflexivity].
      destruct host as [h|]; [right | left; reflexivity].
      apply occurs_inv in E. destruct E as (a & b & E). now exists h, a, b.
    + destruct host as [h|]; [|discriminate]. cbn [is_local] in E.
      rewrite (HR h eq_refl E). split; [discriminate|].
      intros [H | (h' & a & b & [= <-] & H)]; [discriminate|].
      rewrite H, occurs_app in E. discriminate.
  - intros h ->. destruct (occurs "local" h) eqn:E.
    + rewrite (HL E). split; [discriminate|].
      intros H. destruct H. apply occurs_inv. exact E.
    + rewrite (HR h eq_refl E). split; [intros _ | reflexivity].
      intros (a & b & H). rewrite H, occurs_app in E. discriminate.
Qed.

Lemma pick_port_local_branch_iff_witness :
  hd_error (trace (pick_port (subprocess [] []) (Some "mylocaldomain.com")
                     8000 8010 22))
  = Some (EvPopen local_popen_args).
Proof.
  apply (pick_port_local_branch_iff (subprocess [] [])
           (Some "mylocaldomain.com") 8000 8010 22).
  right. exists "mylocaldomain.com", "my", "domain.com".
  split; reflexivity.
Defined.

(** ** Further properties of [remote_operations] *)

(** X1.  [terminate()] is called on the session exactly when the call is in
    non-tty mode and returns: a call that raises [RemoteCommandError] leaves
    the process unterminated, and so does every call in tty mode. *)
Theorem remote_operations_terminate_iff :
  forall (sys : system) (remote_host : string) (commands : list string)
         (port : Z) (catch_errors tty_session : bool) (banner_size : Z),
    let run := remote_operations sys remote_host commands port catch_errors
                 tty_session banner_size in
    In EvTerminate (trace run)
    <-> tty_session = false /\ exists out, result run = Return out.
Proof.
  intros sys h cmds port ce tty k run. subst run.
  destruct (Popen_accepts sys (ssh_popen_args h port tty)) eqn:A.
  - destruct tty.
    + rewrite remote_operations_tty by exact A. cbn [trace fst]. split.
      * intros [H | H]; [discriminate|]. apply in_app_or in H.
        destruct H as [H | [H | []]]; [|discriminate].
        apply in_written in H. destruct H as [c H]. discriminate.
      * intros [H _]. discriminate.
    + rewrite remote_operations_plain by exact A.
      destruct ce;
        [match goal with |- context [truthy ?v] => destruct (truthy v) end|];
        cbn [trace result fst snd]; split.
      * intros [H | H]; [discriminate|]. apply in_app_or in H.
        destruct H as [H | H].
        -- apply in_written in H. destruct H as [c H]. discriminate.
        -- cbn in H. intuition discriminate.
      * intros [_ [out H]]. discriminate.
      * intros _. split; [reflexivity | eexists; reflexivity].
      * intros _. right. apply in_or_app. right. cbn. auto.
      * intros _. split; [reflexivity | eexists; reflexivity].
      * intros _. right. apply in_or_app. right. cbn. auto.
  - rewrite (remote_operations_rejected _ _ _ _ _ _ _ A).
    cbn [trace result fst snd]. split.
    + intros [H | []]. discriminate.
    + intros [_ [out H]]. discriminate.
Qed.

(** X2.  In non-tty mode with error checking on, a [banner_size] at least as
    large as the number of lines on the error stream discards them all, so
    no [RemoteCommandError] is raised whatever those lines are: the call
    stops with [TypeError] when [Popen] rejects it, and returns the filtered
    output otherwise. *)
Theorem remote_operations_banner_covers_errors :
  forall (sys : system) (remote_host : string) (commands : list string)
         (port : Z) (banner_size : Z),
    let p := session sys remote_host port false in
    Z.of_nat (List.length (stderr_readlines p)) <= banner_size ->
    result (remote_operations sys remote_host commands port true false
              banner_size)
    = if Popen_accepts sys (plain_popen_args remote_host port)
      then Return (PyList (keep_lines (stdout_readlines p)))
      else Raise TypeError.
Proof.
  intros sys h cmds port k p Hk.
  destruct (Popen_accepts sys (plain_popen_args h port)) eqn:A.
  - rewrite remote_operations_plain by exact A.
    fold (session sys h port false). fold p.
    rewrite banner_slice by lia.
    rewrite skipn_all2 by lia. reflexivity.
  - rewrite (remote_operations_rejected _ _ _ _ _ _ false A). reflexivity.
Qed.

Lemma remote_operations_banner_covers_errors_witness :
  result (remote_operations
            (subprocess ["total 0" ++ LF]
               ["Welcome to web1" ++ LF; "Last login: yesterday" ++ LF])
            "web1" ["ls -l"] 22 true false 5)
  = Raise TypeError.
Proof.
  apply (remote_operations_banner_covers_errors
           (subprocess ["total 0" ++ LF]
              ["Welcome to web1" ++ LF; "Last login: yesterday" ++ LF])
           "web1" ["ls -l"] 22 5).
  cbn. lia.
Defined.

(** X3.  In non-tty mode with error checking on, a negative [banner_size]
    discards from the wrong end: of a non-empty error stream of [n] lines
    the last [min (- banner_size) n] are kept.  The call stops with
    [TypeError] when [Popen] rejects it, and otherwise always raises
    [RemoteCommandError], with the kept lines joined by line feeds as the
    message. *)
Theorem remote_operations_negative_banner :
  forall (sys : system) (remote_host : string) (commands : list string)
         (port : Z) (banner_size : Z),
    let err := stderr_readlines (session sys remote_host port false) in
    banner_size < 0 ->
    err <> [] ->
    exists dropped kept,
      err = (dropped ++ kept)%list
      /\ kept <> []
      /\ Z.of_nat (List.length kept)
         = Z.min (- banner_size) (Z.of_nat (List.length err))
      /\ result (remote_operations sys remote_host commands port true false
                   banner_size)
         = if Popen_accepts sys (plain_popen_args remote_host port)
           then Raise (RemoteCommandError (String.concat LF kept))
           else Raise TypeError.
Proof.
  intros sys h cmds port k err Hk Hne.
  set (n := Z.to_nat (Z.max 0 (Z.of_nat (List.length err) + k))).
  exists (firstn n err), (skipn n err).
  assert (Hlen : (0 < List.length err)%nat).
  { destruct err; [congruence | cbn; lia]. }
  assert (Hn : (n < List.length err)%nat) by (subst n; lia).
  assert (Hk' : List.length (skipn n err) = (List.length err - n)%nat)
    by apply length_skipn.
  split; [symmetry; apply firstn_skipn|]. split.
  - intros E. rewrite E in Hk'. cbn in Hk'. lia.
  - split; [rewrite Hk'; subst n; lia|].
    destruct (Popen_accepts sys (plain_popen_args h port)) eqn:A.
    + rewrite remote_operations_plain by exact A.
      fold (session sys h port false). fold err.
      replace (negb (k =? 0)) with true
        by (symmetry; apply negb_true_iff, Z.eqb_neq; lia).
      unfold slice_from. destruct (Z.leb_spec 0 k); [lia|]. fold n.
      destruct (skipn n err) eqn:E; [cbn in Hk'; lia | reflexivity].
    + rewrite (remote_operations_rejected _ _ _ _ _ _ false A). reflexivity.
Qed.

Lemma remote_operations_negative_banner_witness :
  exists dropped kept,
    ["Welcome to web1" ++ LF; "ls: cannot access x" ++ LF]
    = (dropped ++ kept)%list
    /\ kept <> []
    /\ Z.of_nat (List.length kept) = Z.min (- (-1)) (Z.of_nat 2)
    /\ result (remote_operations
                 (subprocess [] ["Welcome to web1" ++ LF;
                                 "ls: cannot access x" ++ LF])
                 "web1" ["ls x"] 22 true false (-1))
       = Raise TypeError.
Proof.
  apply (remote_operations_negative_banner
           (subprocess [] ["Welcome to web1" ++ LF; "ls: cannot access x" ++ LF])
           "web1" ["ls x"] 22 (-1)).
  - lia.
  - discriminate.
Defined.

(** ** Further properties of [pick_port] *)

(** X5.  On the local branch (host [None] or with "local" inside) a call
    never returns a port, and [ssh_port] plays no part in it.  When [Popen]
    rejects the call, [pick_port] stops there with [TypeError]; otherwise
    the lines that netstat wrote and the range decide: "command not found"
    in the joined text gives [NoCommandFoundError], and else a non-empty
    range gives [TypeError] and an empty one gives [None]. *)
Theorem pick_port_local_outcome :
  forall (sys : system) (host : option string) (port_min port_max ssh_port : Z),
    is_local host = true ->
    let text := String.concat ", " (stdout_readlines (sys local_popen_args)) in
    pick_port sys host port_min port_max ssh_port
    = (if Popen_accepts sys local_popen_args
       then ([EvPopen local_popen_args; EvStdoutReadlines; EvTerminate],
             if occurs "command not found" text
             then Raise (NoCommandFoundError (not_installed_message host))
             else if port_min <? port_max then Raise TypeError
                  else Return None)
       else ([EvPopen local_popen_args], Raise TypeError))
    /\ forall port,
         result (pick_port sys host port_min port_max ssh_port)
         <> Return (Some port).
Proof.
  intros sys host lo hi ssh Hl text.
  assert (E : pick_port sys host lo hi ssh
              = (if Popen_accepts sys local_popen_args
                 then ([EvPopen local_popen_args; EvStdoutReadlines; EvTerminate],
                       if occurs "command not found" text
                       then Raise (NoCommandFoundError (not_installed_message host))
                       else if lo <? hi then Raise TypeError else Return None)
                 else ([EvPopen local_popen_args], Raise TypeError))).
  { unfold pick_port. rewrite (listing_local _ _ _ Hl).
    destruct (Popen_accepts sys local_popen_args); [|reflexivity].
    cbn [bind lift app]. unfold choose. cbn [join]. fold text.
    destruct (occurs "command not found" text); [reflexivity|].
    unfold range. destruct (Z.ltb_spec lo hi) as [H | H].
    - destruct (Z.to_nat (hi - lo)) eqn:N; [lia | reflexivity].
    - replace (Z.to_nat (hi - lo)) with 0%nat by lia. reflexivity. }
  split; [exact E|].
  intros port. rewrite E.
  destruct (Popen_accepts sys local_popen_args); cbn [result snd];
    [|discriminate].
  destruct (occurs "command not found" text); [discriminate|].
  destruct (lo <? hi); discriminate.
Qed.

Lemma pick_port_local_outcome_witness :
  pick_port (subprocess listing_22_80 []) (Some "localhost") 8000 8100 22
  = ([EvPopen local_popen_args], Raise TypeError).
Proof.
  apply (pick_port_local_outcome (subprocess listing_22_80 [])
           (Some "localhost") 8000 8100 22).
  reflexivity.
Defined.

(** X6.  On the remote branch, when [communicate] yields [None] for the
    output stream (its answer for a stream that is not piped, and the
    tty-mode [Popen] of [remote_operations] pipes standard input only), the
    call raises [TypeError] for every range, the empty one included: the
    listing cannot be joined. *)
Theorem pick_port_remote_unpiped_type_error :
  forall (sys : system) (h : string) (port_min port_max ssh_port : Z),
    occurs "local" h = false ->
    fst (communicate (sys (tty_popen_args h ssh_port))) = None ->
    result (pick_port sys (Some h) port_min port_max ssh_port)
    = Raise TypeError.
Proof.
  intros sys h lo hi ssh Hl Hc.
  rewrite result_pick_port, (listing_remote _ _ _ Hl).
  destruct (Popen_accepts sys (tty_popen_args h ssh)); cbn [result snd];
    [|reflexivity].
  rewrite Hc. reflexivity.
Qed.

Lemma pick_port_remote_unpiped_type_error_witness :
  result (pick_port (spawned listing_22_80 []) (Some "web1") 8000 8100 22)
  = Raise TypeError.
Proof.
  apply (pick_port_remote_unpiped_type_error (spawned listing_22_80 [])
           "web1" 8000 8100 22); reflexivity.
Defined.

(** X8.  Whatever the system, host and range, a call of [pick_port] that
    raises raises [TypeError] or the [NoCommandFoundError] that names the
    host: no [RemoteCommandError] comes out of the SSH session, which is run
    with error checking off, and [NoPortsFound] is never raised. *)
Theorem pick_port_raises_only :
  forall (sys : system) (host : option string) (port_min port_max ssh_port : Z)
         (e : exn),
    result (pick_port sys host port_min port_max ssh_port) = Raise e ->
    e = TypeError \/ e = NoCommandFoundError (not_installed_message host).
Proof.
  intros sys host lo hi ssh e. apply pick_port_raises.
Qed.

Lemma pick_port_raises_only_witness :
  result (pick_port (spawned listing_22_80 []) (Some "web1") 8000 8100 22)
  = Raise TypeError
  /\ (TypeError = TypeError
      \/ TypeError = NoCommandFoundError (not_installed_message (Some "web1"))).
Proof.
  split; [reflexivity|].
  apply (pick_port_raises_only (spawned listing_22_80 []) (Some "web1")
           8000 8100 22 TypeError).
  reflexivity.
Defined.

(** ** Properties of the string conversions *)

Import StrConversions ConversionTerms.

Section MoreStringFacts.

Lemma append_nil_r (s : string) : s ++ "" = s.
Proof. induction s as [|c s IH]; cbn; [|rewrite IH]; reflexivity. Qed.

Lemma append_assoc (a b c : string) : (a ++ b) ++ c = a ++ b ++ c.
Proof. induction a as [|x a IH]; cbn; [|rewrite IH]; reflexivity. Qed.

Lemma length_append (a b : string) :
  String.length (a ++ b) = (String.length a + String.length b)%nat.
Proof. induction a as [|x a IH]; cbn; [|rewrite IH]; reflexivity. Qed.

Lemma len_append (a b : string) : len (a ++ b) = len a + len b.
Proof. unfold len. rewrite length_append. lia. Qed.

Lemma len_nonneg (s : string) : 0 <= len s.
Proof. unfold len. lia. Qed.

Lemma free_of_append (c : ascii) (a b : string) :
  free_of c (a ++ b) = free_of c a && free_of c b.
Proof.
  induction a as [|x a IH]; cbn; [reflexivity|].
  rewrite IH. apply andb_assoc.
Qed.

Lemma remove_char_free (c : ascii) (s : string) :
  free_of c (remove_char c s) = true.
Proof.
  induction s as [|d s IH]; cbn; [reflexivity|].
  destruct (Ascii.eqb d c) eqn:E; [exact IH|].
  cbn. rewrite E, IH. reflexivity.
Qed.

Lemma remove_char_keeps_free (c sep : ascii) (s : string) :
  free_of sep s = true -> free_of sep (remove_char c s) = true.
Proof.
  induction s as [|d s IH]; cbn; [reflexivity|].
  intros H. apply andb_true_iff in H. destruct H as [H1 H2].
  destruct (Ascii.eqb d c); [exact (IH H2)|].
  cbn. rewrite H1, (IH H2). reflexivity.
Qed.

Lemma remove_char_id (c : ascii) (s : string) :
  free_of c s = true -> remove_char c s = s.
Proof.
  induction s as [|d s IH]; cbn; [reflexivity|].
  intros H. apply andb_true_iff in H. destruct H as [H1 H2].
  apply negb_true_iff in H1. rewrite H1, (IH H2). reflexivity.
Qed.

Lemma split_not_nil (sep : ascii) (s : string) : split sep s <> [].
Proof.
  destruct s as [|c s]; cbn; [discriminate|].
  destruct (Ascii.eqb c sep); [discriminate|].
  destruct (split sep s); discriminate.
Qed.

Lemma last_cons_not_nil (x : string) (l : list string) :
  l <> [] -> List.last (x :: l) "" = List.last l "".
Proof. destruct l; [congruence | reflexivity]. Qed.

(** The last piece of a split holds no separator. *)
Lemma last_split_free (sep : ascii) (s : string) :
  free_of sep (List.last (split sep s) "") = true.
Proof.
  induction s as [|c s IH]; [reflexivity|].
  cbn [split]. destruct (Ascii.eqb c sep) eqn:E.
  - rewrite last_cons_not_nil by apply split_not_nil. exact IH.
  - destruct (split sep s) as [|p ps] eqn:S; [now apply split_not_nil in S|].
    destruct ps as [|q qs].
    + cbn in *. rewrite E, IH. reflexivity.
    + exact IH.
Qed.

(** A string without the separator is its own last piece. *)
Lemma last_split_id (sep : ascii) (s : string) :
  free_of sep s = true -> split sep s = [s].
Proof.
  induction s as [|c s IH]; [reflexivity|].
  cbn. intros H. apply andb_true_iff in H. destruct H as [H1 H2].
  apply negb_true_iff in H1. rewrite H1, (IH H2). reflexivity.
Qed.

(** Whatever stands before a separator, the separator included, is not in
    the last piece. *)
Lemma last_split_after (sep : ascii) (a s : string) :
  List.last (split sep (a ++ String sep s)) ""
  = List.last (split sep s) "".
Proof.
  assert (G : exists p ps,
             split sep (a ++ String sep s) = p :: ps /\ ps <> []
             /\ List.last ps "" = List.last (split sep s) "").
  { induction a as [|c a IH].
    - cbn. rewrite Ascii.eqb_refl. exists "", (split sep s).
      split; [reflexivity|]. split; [apply split_not_nil | reflexivity].
    - destruct IH as (p & ps & E & N & L). cbn [append split]. rewrite E.
      destruct (Ascii.eqb c sep).
      + exists "", (p :: ps). split; [reflexivity|]. split; [discriminate|].
        rewrite last_cons_not_nil by exact N. exact L.
      + exists (String c p), ps. auto. }
  destruct G as (p & ps & E & N & L).
  rewrite E, last_cons_not_nil by exact N. exact L.
Qed.

End MoreStringFacts.

(** X9.  [_strip_binary] and [_strip_hex] return a string with no space and
    no marker character ("b", respectively "x") left in it, and stripping a
    stripped string changes nothing. *)
Theorem strip_clean_and_idempotent :
  forall s : string,
    (free_of " " (_strip_binary s) = true
     /\ free_of "b" (_strip_binary s) = true
     /\ _strip_binary (_strip_binary s) = _strip_binary s)
    /\ (free_of " " (_strip_hex s) = true
        /\ free_of "x" (_strip_hex s) = true
        /\ _strip_hex (_strip_hex s) = _strip_hex s).
Proof.
  intros s. unfold _strip_binary, _strip_hex.
  split.
  - set (t := remove_char " " (List.last (split "b" s) "")).
    assert (F1 : free_of " " t = true) by apply remove_char_free.
    assert (F2 : free_of "b" t = true)
      by apply remove_char_keeps_free, last_split_free.
    repeat split; [exact F1 | exact F2 |].
    rewrite (last_split_id _ _ F2). cbn [List.last].
    apply remove_char_id, F1.
  - set (t := remove_char " " (List.last (split "x" s) "")).
    assert (F1 : free_of " " t = true) by apply remove_char_free.
    assert (F2 : free_of "x" t = true)
      by apply remove_char_keeps_free, last_split_free.
    repeat split; [exact F1 | exact F2 |].
    rewrite (last_split_id _ _ F2). cbn [List.last].
    apply remove_char_id, F1.
Qed.

(** X10.  Both strip functions throw away everything up to and including
    the last marker character, whatever it is: when [s] holds no "b",
    [_strip_binary] of [a ++ "b" ++ s] is [s] without its spaces for every
    [a] (so "0b101" and "-0b101" both give "101"), and likewise for
    [_strip_hex] and "x". *)
Theorem strip_drops_through_marker :
  forall a s : string,
    (free_of "b" s = true ->
     _strip_binary (a ++ "b" ++ s) = remove_char " " s)
    /\ (free_of "x" s = true ->
        _strip_hex (a ++ "x" ++ s) = remove_char " " s).
Proof.
  intros a s. unfold _strip_binary, _strip_hex. split; intros F.
  - change (a ++ "b" ++ s) with (a ++ String "b" s).
    rewrite last_split_after, (last_split_id _ _ F). reflexivity.
  - change (a ++ "x" ++ s) with (a ++ String "x" s).
    rewrite last_split_after, (last_split_id _ _ F). reflexivity.
Qed.

Lemma strip_drops_through_marker_witness :
  _strip_binary ("-0" ++ "b" ++ "1010 1111") = "10101111"
  /\ _strip_hex ("0" ++ "x" ++ "ff 0A") = "ff0A".
Proof.
  split.
  - apply (strip_drops_through_marker "-0" "1010 1111"). reflexivity.
  - apply (strip_drops_through_marker "0" "ff 0A"). reflexivity.
Defined.

(** X11.  [encode_ascii_to_binary] never returns: its first action is to
    call itself with the same argument, so for every input and every limit
    on the depth of the stack the call ends in a [RecursionError]. *)
Theorem encode_ascii_to_binary_never_returns :
  forall (int_ : int_builtin) (depth : nat) (ascii_value : string),
    encode_ascii_to_binary int_ depth ascii_value = Err RecursionError.
Proof.
  intros int_ depth ascii_value.
  induction depth as [|depth IH]; [reflexivity|].
  cbn [encode_ascii_to_binary]. rewrite IH. reflexivity.
Qed.

(** *** Digits *)

Lemma digit_value_char (upper : bool) (d : Z) :
  0 <= d < 16 -> digit_value (digit_char upper d) = Some d.
Proof.
  intros H.
  assert (C : d = 0 \/ d = 1 \/ d = 2 \/ d = 3 \/ d = 4 \/ d = 5 \/ d = 6
              \/ d = 7 \/ d = 8 \/ d = 9 \/ d = 10 \/ d = 11 \/ d = 12
              \/ d = 13 \/ d = 14 \/ d = 15) by lia.
  destruct upper;
    repeat (destruct C as [-> | C]; [reflexivity|]); subst d; reflexivity.
Qed.

Lemma digit_or_zero_char (upper : bool) (d : Z) :
  0 <= d < 16 -> digit_or_zero (digit_char upper d) = d.
Proof. intros H. unfold digit_or_zero. rewrite digit_value_char; auto. Qed.

Lemma digit_in_char (base : Z) (upper : bool) (d : Z) :
  base <= 16 -> 0 <= d < base -> digit_in base (digit_char upper d) = true.
Proof.
  intros Hb H. unfold digit_in. rewrite digit_value_char by lia.
  apply Z.ltb_lt. lia.
Qed.

Lemma digit_value_range (c : ascii) (d : Z) :
  digit_value c = Some d -> 0 <= d < 16.
Proof.
  unfold digit_value. set (n := Z.of_nat (nat_of_ascii c)).
  destruct ((48 <=? n) && (n <=? 57)) eqn:E1;
    [|destruct ((97 <=? n) && (n <=? 102)) eqn:E2;
      [|destruct ((65 <=? n) && (n <=? 70)) eqn:E3]];
    intros [= <-]; lia.
Qed.

Lemma nat_of_ascii_bound (c : ascii) : (nat_of_ascii c < 256)%nat.
Proof.
  destruct c as [[] [] [] [] [] [] [] []]; vm_compute; lia.
Qed.


Lemma zeros_succ (k : Z) : 0 <= k -> zeros (k + 1) = String "0" (zeros k).
Proof.
  intros H. unfold zeros.
  replace (Z.to_nat (k + 1)) with (S (Z.to_nat k)) by lia. reflexivity.
Qed.

Lemma zeros_snoc (k : Z) :
  0 <= k -> zeros k ++ "0" = zeros (k + 1).
Proof.
  intros H. rewrite <- (Z2Nat.id k H). generalize (Z.to_nat k) as n.
  induction n as [|n IH].
  - reflexivity.
  - replace (Z.of_nat (S n)) with (Z.of_nat n + 1) by lia.
    rewrite !zeros_succ by lia. cbn [append]. rewrite IH.
    rewrite zeros_succ by lia. reflexivity.
Qed.

Lemma len_zeros (k : Z) : 0 <= k -> len (zeros k) = k.
Proof.
  intros H. rewrite <- (Z2Nat.id k H). generalize (Z.to_nat k) as n.
  induction n as [|n IH]; [reflexivity|].
  replace (Z.of_nat (S n)) with (Z.of_nat n + 1) by lia.
  rewrite zeros_succ by lia. unfold len in *. cbn [String.length]. lia.
Qed.

Lemma value_from_append (base acc : Z) (s t : string) :
  value_from base acc (s ++ t) = value_from base (value_from base acc s) t.
Proof.
  revert acc; induction s as [|c s IH]; intros acc; cbn; [|rewrite IH];
    reflexivity.
Qed.

Lemma all_digits_append (base : Z) (s t : string) :
  all_digits base (s ++ t) = all_digits base s && all_digits base t.
Proof.
  induction s as [|c s IH]; cbn; [reflexivity|].
  rewrite IH. apply andb_assoc.
Qed.

Lemma all_digits_free_of (base : Z) (c : ascii) (s : string) :
  digit_in base c = false -> all_digits base s = true -> free_of c s = true.
Proof.
  intros Hc. induction s as [|d s IH]; cbn; [reflexivity|].
  intros H. apply andb_true_iff in H. destruct H as [H1 H2].
  rewrite (IH H2), andb_true_r. apply negb_true_iff.
  destruct (Ascii.eqb_spec d c) as [->|]; [congruence | reflexivity].
Qed.

Section Digits.

Variable base : Z.
Hypothesis base_range : 2 <= base <= 16.
Variable upper : bool.

Lemma length_fixed (w : nat) (n : Z) :
  String.length (fixed base upper w n) = w.
Proof.
  revert n; induction w as [|w IH]; intros n; [reflexivity|].
  cbn [fixed]. rewrite length_append, IH. cbn. lia.
Qed.

Lemma len_fixed (w : nat) (n : Z) : len (fixed base upper w n) = Z.of_nat w.
Proof. unfold len. rewrite length_fixed. reflexivity. Qed.

Lemma all_digits_fixed (w : nat) (n : Z) :
  all_digits base (fixed base upper w n) = true.
Proof.
  revert n; induction w as [|w IH]; intros n; [reflexivity|].
  cbn [fixed]. rewrite all_digits_append, IH. cbn.
  rewrite digit_in_char; [reflexivity | lia | apply Z.mod_pos_bound; lia].
Qed.

Lemma fixed_zero (w : nat) : fixed base upper w 0 = zeros (Z.of_nat w).
Proof.
  induction w as [|w IH]; [reflexivity|].
  cbn [fixed]. rewrite Z.div_0_l, Z.mod_0_l by lia. rewrite IH.
  replace (Z.of_nat (S w)) with (Z.of_nat w + 1) by lia.
  rewrite <- zeros_snoc by lia. reflexivity.
Qed.

(** Reading back the [w] digits of [n]. *)
Lemma value_from_fixed (w : nat) (n acc : Z) :
  value_from base acc (fixed base upper w n)
  = acc * base ^ Z.of_nat w + n mod base ^ Z.of_nat w.
Proof.
  revert n acc; induction w as [|w IH]; intros n acc.
  - cbn. rewrite Z.mod_1_r. lia.
  - cbn [fixed]. rewrite value_from_append, IH. cbn [value_from].
    rewrite digit_or_zero_char
      by (pose proof (Z.mod_pos_bound n base); lia).
    replace (Z.of_nat (S w)) with (Z.succ (Z.of_nat w)) by lia.
    rewrite Z.pow_succ_r by lia.
    rewrite (Z.rem_mul_r n base (base ^ Z.of_nat w)) by
      (try lia; apply Z.pow_pos_nonneg; lia).
    ring.
Qed.

(** Writing the digits of a number that was read from digits: the digits
    come back, in the chosen case. *)
Lemma fixed_value_from (s : string) (k : nat) (acc : Z) :
  all_digits base s = true ->
  fixed base upper (String.length s + k) (value_from base acc s)
  = fixed base upper k acc ++ canon upper s.
Proof.
  revert k acc; induction s as [|c s IH]; intros k acc H.
  - cbn. rewrite append_nil_r. reflexivity.
  - cbn in H. apply andb_true_iff in H. destruct H as [H1 H2].
    cbn [String.length value_from canon].
    replace (S (String.length s) + k)%nat with (String.length s + S k)%nat
      by lia.
    rewrite (IH (S k) _ H2). cbn [fixed].
    unfold digit_in in H1. unfold digit_or_zero.
    destruct (digit_value c) as [d|] eqn:D; [|discriminate].
    apply Z.ltb_lt in H1. pose proof (digit_value_range _ _ D) as R.
    replace ((acc * base + d) / base) with acc
      by (rewrite Z.div_add_l, Z.div_small by lia; lia).
    replace ((acc * base + d) mod base) with d
      by (rewrite Z.add_comm, Z.mod_add, Z.mod_small by lia; lia).
    rewrite append_assoc. reflexivity.
Qed.

(** The digits without leading zeros, filled with zeros to [w] characters,
    are the [w] fixed digits. *)
Lemma fixed_S (w : nat) (n : Z) :
  fixed base upper (S w) n
  = fixed base upper w (n / base) ++ String (digit_char upper (n mod base)) "".
Proof. reflexivity. Qed.

Lemma digits_fuel_S (fuel : nat) (n : Z) :
  digits_fuel (S fuel) base upper n
  = if n <? base then String (digit_char upper n) ""
    else digits_fuel fuel base upper (n / base)
           ++ String (digit_char upper (n mod base)) "".
Proof. reflexivity. Qed.

Lemma pad_digits_fuel (w fuel : nat) (n : Z) :
  fuel <> O ->
  0 <= n < base ^ Z.of_nat fuel ->
  n < base ^ Z.of_nat (S w) ->
  zeros (Z.of_nat (S w) - len (digits_fuel fuel base upper n))
    ++ digits_fuel fuel base upper n
  = fixed base upper (S w) n.
Proof.
  revert fuel n; induction w as [|w IH]; intros fuel n Hf Hn Hw;
    (destruct fuel as [|fuel]; [congruence|]);
    rewrite digits_fuel_S, fixed_S;
    destruct (Z.ltb_spec n base) as [L | L].
  - rewrite Z.mod_small by lia. reflexivity.
  - rewrite Z.pow_1_r in Hw. lia.
  - rewrite Z.div_small, Z.mod_small by lia.
    rewrite fixed_zero.
    replace (Z.of_nat (S (S w)) - len (String (digit_char upper n) ""))
      with (Z.of_nat (S w)) by (unfold len; cbn [String.length]; lia).
    reflexivity.
  - assert (Hq : 1 <= n / base) by (apply Z.div_le_lower_bound; lia).
    assert (Hf' : fuel <> O).
    { intros ->. cbn in Hn. lia. }
    assert (Hqf : n / base < base ^ Z.of_nat fuel).
    { apply Z.div_lt_upper_bound; [lia|].
      replace (Z.of_nat (S fuel)) with (Z.succ (Z.of_nat fuel)) in Hn by lia.
      rewrite Z.pow_succ_r in Hn by lia. lia. }
    assert (Hqw : n / base < base ^ Z.of_nat (S w)).
    { apply Z.div_lt_upper_bound; [lia|].
      replace (Z.of_nat (S (S w))) with (Z.succ (Z.of_nat (S w))) in Hw by lia.
      rewrite Z.pow_succ_r in Hw by lia. lia. }
    assert (Hq0 : 0 <= n / base) by lia.
    pose proof (IH fuel (n / base) Hf' (conj Hq0 Hqf) Hqw) as E.
    rewrite <- E, len_append, append_assoc.
    replace (Z.of_nat (S (S w))
             - (len (digits_fuel fuel base upper (n / base))
                + len (String (digit_char upper (n mod base)) "")))
      with (Z.of_nat (S w) - len (digits_fuel fuel base upper (n / base)))
      by (unfold len; cbn [String.length]; lia).
    reflexivity.
Qed.

Lemma pad_digits (w : nat) (n : Z) :
  0 <= n < base ^ Z.of_nat (S w) ->
  zeros (Z.of_nat (S w) - len (digits base upper n)) ++ digits base upper n
  = fixed base upper (S w) n.
Proof.
  intros H. unfold digits. apply pad_digits_fuel; [discriminate | | lia].
  split; [lia|].
  destruct (Z.eq_dec n 0) as [->|Hn].
  - cbn. lia.
  - rewrite Nat2Z.inj_succ, Z2Nat.id by apply Z.log2_nonneg.
    pose proof (Z.log2_spec n ltac:(lia)) as [_ U].
    apply (Z.lt_le_trans _ _ _ U).
    apply Z.pow_le_mono_l. lia.
Qed.

Lemma all_digits_digits_fuel (fuel : nat) (n : Z) :
  0 <= n -> all_digits base (digits_fuel fuel base upper n) = true.
Proof.
  revert n; induction fuel as [|fuel IH]; intros n H; [reflexivity|].
  cbn [digits_fuel]. destruct (Z.ltb_spec n base) as [L | L].
  - cbn. rewrite digit_in_char; [reflexivity | lia | lia].
  - rewrite all_digits_append, IH by (apply Z.div_pos; lia). cbn.
    rewrite digit_in_char; [reflexivity | lia | apply Z.mod_pos_bound; lia].
Qed.

Lemma value_from_canon (s : string) (acc : Z) :
  all_digits base s = true ->
  value_from base acc (canon upper s) = value_from base acc s.
Proof.
  revert acc; induction s as [|c s IH]; intros acc H; [reflexivity|].
  cbn in H. apply andb_true_iff in H. destruct H as [H1 H2].
  cbn [canon value_from]. unfold digit_in in H1.
  destruct (digit_value c) as [d|] eqn:D; [|discriminate].
  assert (V : digit_or_zero c = d) by (unfold digit_or_zero; now rewrite D).
  rewrite V, digit_or_zero_char by exact (digit_value_range _ _ D).
  apply (IH _ H2).
Qed.

Lemma digits_value_bound (s : string) :
  all_digits base s = true ->
  0 <= digits_value base s < base ^ len s.
Proof.
  intros H. unfold digits_value, len.
  pose proof (fixed_value_from s 0 0 H) as E.
  apply (f_equal (value_from base 0)) in E.
  rewrite Nat.add_0_r, value_from_fixed in E. cbn [fixed append] in E.
  rewrite (value_from_canon _ _ H) in E. rewrite <- E.
  rewrite Z.mul_0_l, Z.add_0_l.
  apply Z.mod_pos_bound. apply Z.pow_pos_nonneg; lia.
Qed.

End Digits.

(** *** The conversions between binary and hexadecimal *)

Lemma canon_binary_char (upper : bool) (c : ascii) :
  digit_in 2 c = true -> digit_char upper (digit_or_zero c) = c.
Proof.
  destruct upper; destruct c as [[] [] [] [] [] [] [] []];
    vm_compute; intros H; try discriminate H; reflexivity.
Qed.

Lemma canon_hex_char (c : ascii) :
  digit_in 16 c = true -> digit_char true (digit_or_zero c) = upper_char c.
Proof.
  destruct c as [[] [] [] [] [] [] [] []];
    vm_compute; intros H; try discriminate H; reflexivity.
Qed.

Lemma canon_binary (upper : bool) (s : string) :
  all_digits 2 s = true -> canon upper s = s.
Proof.
  induction s as [|c s IH]; [reflexivity|].
  cbn. intros H. apply andb_true_iff in H. destruct H as [H1 H2].
  rewrite (canon_binary_char _ _ H1), (IH H2). reflexivity.
Qed.

Lemma canon_hex (s : string) :
  all_digits 16 s = true -> canon true s = to_upper s.
Proof.
  induction s as [|c s IH]; [reflexivity|].
  cbn. intros H. apply andb_true_iff in H. destruct H as [H1 H2].
  rewrite (canon_hex_char _ H1), (IH H2). reflexivity.
Qed.

Lemma strip_binary_id (s : string) :
  free_of "b" s = true -> free_of " " s = true -> _strip_binary s = s.
Proof.
  intros Fb Fs. unfold _strip_binary. rewrite (last_split_id _ _ Fb).
  cbn [List.last]. apply remove_char_id, Fs.
Qed.

Lemma strip_hex_id (s : string) :
  free_of "x" s = true -> free_of " " s = true -> _strip_hex s = s.
Proof.
  intros Fx Fs. unfold _strip_hex. rewrite (last_split_id _ _ Fx).
  cbn [List.last]. apply remove_char_id, Fs.
Qed.

Lemma strip_binary_digits (s : string) :
  all_digits 2 s = true -> _strip_binary s = s.
Proof.
  intros H. apply strip_binary_id;
    apply (all_digits_free_of 2); auto.
Qed.

Lemma strip_hex_digits (s : string) :
  all_digits 16 s = true -> _strip_hex s = s.
Proof.
  intros H. apply strip_hex_id;
    apply (all_digits_free_of 16); auto.
Qed.

Lemma strip_binary_bin (n : Z) :
  0 <= n -> _strip_binary (bin n) = digits 2 false n.
Proof.
  intros H. unfold bin. destruct (Z.ltb_spec n 0) as [L|_]; [lia|].
  rewrite Z.abs_eq by lia.
  assert (D : all_digits 2 (digits 2 false n) = true)
    by (apply all_digits_digits_fuel; lia).
  unfold _strip_binary.
  change ("" ++ "0b" ++ digits 2 false n)
    with ("0" ++ String "b" (digits 2 false n)).
  rewrite last_split_after.
  apply strip_binary_digits, D.
Qed.

Lemma pow_16 (k : Z) : 0 <= k -> 16 ^ k = 2 ^ (4 * k).
Proof. intros H. rewrite Z.pow_mul_r by lia. reflexivity. Qed.

Lemma string_length_pos (s : string) :
  s <> "" -> exists w, String.length s = S w.
Proof. destruct s as [|c s]; [congruence|]. intros _. now exists (String.length s). Qed.

Section BinaryHex.

Variable int_ : int_builtin.
Hypothesis int_law : int_reads_digits int_.

(** [hex_to_binary] in closed form. *)
Lemma hex_to_binary_eq (hex_value : string) :
  let h := _strip_hex hex_value in
  h <> "" ->
  all_digits 16 h = true ->
  hex_to_binary int_ hex_value
  = Ok (fixed 2 false (4 * String.length h) (digits_value 16 h)).
Proof.
  intros h Hne Hd. unfold hex_to_binary. fold h.
  rewrite (int_law 16 h (or_intror eq_refl) Hne Hd).
  set (n := digits_value 16 h).
  pose proof (digits_value_bound 16 ltac:(lia) true h Hd) as B. fold n in B.
  rewrite strip_binary_bin by lia.
  destruct (string_length_pos h Hne) as [w Hw].
  assert (P : zeros (len h * 4 - len (digits 2 false n)) ++ digits 2 false n
              = fixed 2 false (4 * String.length h) n).
  { replace (4 * String.length h)%nat with (S (4 * w + 3)) by lia.
    rewrite <- (pad_digits 2 ltac:(lia) false).
    - unfold len at 1. rewrite Hw. f_equal. f_equal. lia.
    - split; [lia|]. rewrite pow_16 in B by apply len_nonneg.
      unfold len in B. rewrite Hw in B.
      replace (Z.of_nat (S (4 * w + 3))) with (4 * Z.of_nat (S w)) by lia.
      lia. }
  destruct (Z.eqb_spec (len (digits 2 false n)) (len h * 4)) as [E|E];
    cbn [negb].
  - rewrite <- P, E, Z.sub_diag. reflexivity.
  - rewrite P. reflexivity.
Qed.

(** [binary_to_hex] in closed form. *)
Lemma binary_to_hex_eq (binary : string) :
  let b := _strip_binary binary in
  b <> "" ->
  all_digits 2 b = true ->
  binary_to_hex int_ binary
  = Ok (fixed 16 true (Z.to_nat ((len b + 3) / 4)) (digits_value 2 b)).
Proof.
  intros b Hne Hd. unfold binary_to_hex. fold b.
  rewrite (int_law 2 b (or_introl eq_refl) Hne Hd).
  set (n := digits_value 2 b).
  pose proof (digits_value_bound 2 ltac:(lia) true b Hd) as B. fold n in B.
  destruct (string_length_pos b Hne) as [k Hk].
  assert (L : len b = Z.of_nat (S k)) by (unfold len; now rewrite Hk).
  set (w := (len b + 3) / 4).
  assert (Hw : 1 <= w /\ len b <= 4 * w).
  { subst w. pose proof (Z.div_mod (len b + 3) 4 ltac:(lia)).
    pose proof (Z.mod_pos_bound (len b + 3) 4 ltac:(lia)). lia. }
  unfold format_0X. destruct (Z.ltb_spec n 0) as [N|_]; [lia|].
  f_equal. destruct (Z.to_nat w) as [|w'] eqn:W; [lia|].
  replace w with (Z.of_nat (S w')) by lia.
  apply (pad_digits 16 ltac:(lia) true).
  split; [lia|]. rewrite pow_16 by lia.
  apply (Z.lt_le_trans _ (2 ^ len b)); [lia|].
  apply Z.pow_le_mono_r; lia.
Qed.

End BinaryHex.

Lemma int_plain_reads_digits : int_reads_digits int_plain.
Proof.
  intros base s _ Hne Hd. unfold int_plain.
  destruct s as [|c s]; [congruence|]. rewrite Hd. reflexivity.
Qed.

(** X12.  On input whose stripped form is a non-empty string of hexadecimal
    digits, [hex_to_binary] returns four binary digits for every
    hexadecimal digit, and they write the same number; so the result has
    eight binary digits only when there are two hexadecimal digits. *)
Theorem hex_to_binary_four_bits_per_digit :
  forall (int_ : int_builtin) (hex_value : string),
    int_reads_digits int_ ->
    _strip_hex hex_value <> "" ->
    all_digits 16 (_strip_hex hex_value) = true ->
    exists binary,
      hex_to_binary int_ hex_value = Ok binary
      /\ len binary = 4 * len (_strip_hex hex_value)
      /\ all_digits 2 binary = true
      /\ digits_value 2 binary = digits_value 16 (_strip_hex hex_value).
Proof.
  intros int_ v Hint Hne Hd. set (h := _strip_hex v) in *.
  exists (fixed 2 false (4 * String.length h) (digits_value 16 h)).
  split; [apply (hex_to_binary_eq int_ Hint v Hne Hd)|].
  split; [rewrite (len_fixed 2); unfold len; lia|].
  split; [apply all_digits_fixed; lia|].
  unfold digits_value at 1. rewrite (value_from_fixed 2) by lia.
  pose proof (digits_value_bound 16 ltac:(lia) true h Hd) as B.
  rewrite pow_16 in B by apply len_nonneg. unfold len in B.
  replace (Z.of_nat (4 * String.length h)) with (4 * Z.of_nat (String.length h))
    by lia.
  rewrite Z.mod_small by lia. lia.
Qed.

Lemma hex_to_binary_four_bits_per_digit_witness :
  exists binary,
    hex_to_binary int_plain "0x1f3" = Ok binary
    /\ len binary = 4 * len (_strip_hex "0x1f3")
    /\ all_digits 2 binary = true
    /\ digits_value 2 binary = digits_value 16 (_strip_hex "0x1f3").
Proof.
  apply (hex_to_binary_four_bits_per_digit int_plain "0x1f3").
  - exact int_plain_reads_digits.
  - discriminate.
  - reflexivity.
Defined.

(** X13.  Round trip from hexadecimal: on input whose stripped form is a
    non-empty string of hexadecimal digits, [hex_to_binary] followed by
    [binary_to_hex] gives back the stripped input in upper case, leading
    zeros included. *)
Theorem hex_binary_hex_round_trip :
  forall (int_ : int_builtin) (hex_value : string),
    int_reads_digits int_ ->
    _strip_hex hex_value <> "" ->
    all_digits 16 (_strip_hex hex_value) = true ->
    exists binary,
      hex_to_binary int_ hex_value = Ok binary
      /\ binary_to_hex int_ binary = Ok (to_upper (_strip_hex hex_value)).
Proof.
  intros int_ v Hint Hne Hd. set (h := _strip_hex v) in *.
  set (r := fixed 2 false (4 * String.length h) (digits_value 16 h)).
  exists r. split; [apply (hex_to_binary_eq int_ Hint v Hne Hd)|].
  assert (Dr : all_digits 2 r = true) by (apply all_digits_fixed; lia).
  destruct (string_length_pos h Hne) as [w Hw].
  assert (Nr : r <> "").
  { intros E. apply (f_equal String.length) in E.
    unfold r in E. rewrite (length_fixed 2) in E. cbn in E. lia. }
  pose proof (binary_to_hex_eq int_ Hint r) as E. cbv zeta in E.
  rewrite (strip_binary_digits r Dr) in E. rewrite (E Nr Dr). f_equal.
  assert (Lr : len r = 4 * Z.of_nat (String.length h))
    by (unfold r; rewrite (len_fixed 2); lia).
  replace (Z.to_nat ((len r + 3) / 4)) with (String.length h + 0)%nat.
  - assert (V : digits_value 2 r = value_from 16 0 h).
    { unfold digits_value, r. rewrite (value_from_fixed 2) by lia.
      pose proof (digits_value_bound 16 ltac:(lia) true h Hd) as B.
      rewrite pow_16 in B by apply len_nonneg. unfold len in B.
      replace (Z.of_nat (4 * String.length h))
        with (4 * Z.of_nat (String.length h)) by lia.
      rewrite Z.mod_small by lia. unfold digits_value. lia. }
    rewrite V, (fixed_value_from 16 ltac:(lia) true h 0 0 Hd).
    cbn [fixed append]. apply canon_hex, Hd.
  - rewrite Lr.
    pose proof (Z.div_mod (4 * Z.of_nat (String.length h) + 3) 4 ltac:(lia)).
    pose proof (Z.mod_pos_bound (4 * Z.of_nat (String.length h) + 3) 4
                  ltac:(lia)).
    lia.
Qed.

Lemma hex_binary_hex_round_trip_witness :
  exists binary,
    hex_to_binary int_plain "0x 0a f3" = Ok binary
    /\ binary_to_hex int_plain binary = Ok "0AF3".
Proof.
  apply (hex_binary_hex_round_trip int_plain "0x 0a f3").
  - exact int_plain_reads_digits.
  - discriminate.
  - reflexivity.
Defined.

(** X14.  Round trip from binary: on input whose stripped form [b] is a
    non-empty string of binary digits, [binary_to_hex] returns one
    hexadecimal digit for every four binary digits, rounded up, and
    [hex_to_binary] of that result is [b] with zeros put in front up to the
    next multiple of four digits. *)
Theorem binary_hex_binary_round_trip :
  forall (int_ : int_builtin) (binary : string),
    int_reads_digits int_ ->
    _strip_binary binary <> "" ->
    all_digits 2 (_strip_binary binary) = true ->
    let b := _strip_binary binary in
    exists hex_value,
      binary_to_hex int_ binary = Ok hex_value
      /\ len hex_value = (len b + 3) / 4
      /\ hex_to_binary int_ hex_value
         = Ok (zeros (4 * ((len b + 3) / 4) - len b) ++ b).
Proof.
  intros int_ v Hint Hne Hd b. fold b in Hne, Hd.
  set (w := Z.to_nat ((len b + 3) / 4)).
  set (hx := fixed 16 true w (digits_value 2 b)).
  destruct (string_length_pos b Hne) as [k Hk].
  assert (L : len b = Z.of_nat (S k)) by (unfold len; now rewrite Hk).
  assert (Hw : 1 <= (len b + 3) / 4 /\ len b <= 4 * ((len b + 3) / 4)).
  { pose proof (Z.div_mod (len b + 3) 4 ltac:(lia)).
    pose proof (Z.mod_pos_bound (len b + 3) 4 ltac:(lia)). lia. }
  exists hx. split; [apply (binary_to_hex_eq int_ Hint v Hne Hd)|].
  split; [unfold hx; rewrite (len_fixed 16); subst w; lia|].
  assert (Dh : all_digits 16 hx = true) by (apply all_digits_fixed; lia).
  assert (Nh : hx <> "").
  { intros E. apply (f_equal String.length) in E.
    unfold hx in E. rewrite (length_fixed 16) in E. cbn in E. lia. }
  pose proof (hex_to_binary_eq int_ Hint hx) as E. cbv zeta in E.
  rewrite (strip_hex_digits hx Dh) in E. rewrite (E Nh Dh). f_equal.
  assert (Lh : String.length hx = w) by apply length_fixed.
  pose proof (digits_value_bound 2 ltac:(lia) true b Hd) as B.
  assert (V : digits_value 16 hx = value_from 2 0 b).
  { unfold digits_value at 1. unfold hx.
    rewrite (value_from_fixed 16) by lia.
    rewrite Z.mod_small; [unfold digits_value; lia|].
    split; [lia|]. rewrite pow_16 by lia.
    apply (Z.lt_le_trans _ (2 ^ len b)); [lia|].
    apply Z.pow_le_mono_r; lia. }
  rewrite V, Lh.
  replace (4 * w)%nat
    with (String.length b + Z.to_nat (4 * ((len b + 3) / 4) - len b))%nat
    by (unfold len in *; lia).
  rewrite (fixed_value_from 2 ltac:(lia) false b _ 0 Hd).
  rewrite (fixed_zero 2 ltac:(lia)), Z2Nat.id by lia.
  rewrite (canon_binary _ _ Hd). reflexivity.
Qed.

Lemma binary_hex_binary_round_trip_witness :
  exists hex_value,
    binary_to_hex int_plain "0b10 1111" = Ok hex_value
    /\ len hex_value = (len (_strip_binary "0b10 1111") + 3) / 4
    /\ hex_to_binary int_plain hex_value
       = Ok (zeros (4 * ((len (_strip_binary "0b10 1111") + 3) / 4)
                    - len (_strip_binary "0b10 1111"))
             ++ _strip_binary "0b10 1111").
Proof.
  apply (binary_hex_binary_round_trip int_plain "0b10 1111").
  - exact int_plain_reads_digits.
  - discriminate.
  - reflexivity.
Defined.

(** *** Decoding ASCII *)

Lemma all_digits_hex_of (upper : bool) (bytes : string) :
  all_digits 16 (hex_of upper bytes) = true.
Proof.
  induction bytes as [|c rest IH]; [reflexivity|].
  cbn [hex_of]. rewrite all_digits_append, IH, all_digits_fixed by lia.
  reflexivity.
Qed.

Lemma all_digits_bits_of (bytes : string) :
  all_digits 2 (bits_of bytes) = true.
Proof.
  induction bytes as [|c rest IH]; [reflexivity|].
  cbn [bits_of]. rewrite all_digits_append, IH, all_digits_fixed by lia.
  reflexivity.
Qed.

Lemma length_hex_of (upper : bool) (bytes : string) :
  String.length (hex_of upper bytes) = (2 * String.length bytes)%nat.
Proof.
  induction bytes as [|c rest IH]; [reflexivity|].
  cbn [hex_of]. rewrite length_append, IH, length_fixed. cbn. lia.
Qed.

Lemma length_bits_of (bytes : string) :
  String.length (bits_of bytes) = (8 * String.length bytes)%nat.
Proof.
  induction bytes as [|c rest IH]; [reflexivity|].
  cbn [bits_of]. rewrite length_append, IH, length_fixed. cbn. lia.
Qed.

Lemma concat_chars (s : string) : String.concat "" (chars s) = s.
Proof.
  induction s as [|c s IH]; [reflexivity|].
  cbn [chars String.concat]. destruct (chars s) as [|x xs] eqn:E.
  - destruct s; [reflexivity | discriminate E].
  - cbn [append]. rewrite IH. reflexivity.
Qed.

(** The two hexadecimal digits of a byte decode to that byte, which is kept
    when it is below 128 and ends the call in a [TypeError] otherwise. *)
Lemma decode_grouping_byte (upper : bool) (c : ascii) :
  decode_grouping (fixed 16 upper 2 (Z.of_nat (nat_of_ascii c)))
  = if Z.of_nat (nat_of_ascii c) <? 128 then Ok (String c "")
    else Err TypeError.
Proof.
  pose proof (nat_of_ascii_bound c) as B.
  set (n := Z.of_nat (nat_of_ascii c)).
  assert (Hn : 0 <= n < 256) by (subst n; lia).
  unfold decode_grouping. cbn [fixed append hex_decode].
  rewrite !digit_value_char by (apply Z.mod_pos_bound; lia).
  replace (16 * (n / 16 mod 16) + n mod 16) with n.
  - subst n. rewrite Nat2Z.id, ascii_nat_embedding. cbn [is_ascii].
    rewrite andb_true_r. reflexivity.
  - rewrite (Z.mod_small (n / 16) 16).
    + pose proof (Z.div_mod n 16 ltac:(lia)). lia.
    + split; [apply Z.div_pos; lia | apply Z.div_lt_upper_bound; lia].
Qed.

Lemma decode_groupings_hex_of (upper : bool) (bytes : string) :
  decode_groupings (groups_of_two (hex_of upper bytes))
  = if is_ascii bytes then Ok (chars bytes) else Err TypeError.
Proof.
  induction bytes as [|c rest IH]; [reflexivity|].
  assert (G : groups_of_two (hex_of upper (String c rest))
              = fixed 16 upper 2 (Z.of_nat (nat_of_ascii c))
                  :: groups_of_two (hex_of upper rest)) by reflexivity.
  rewrite G. cbn [decode_groupings]. rewrite decode_grouping_byte, IH.
  cbn [is_ascii chars].
  destruct (Z.of_nat (nat_of_ascii c) <? 128); [|reflexivity].
  destruct (is_ascii rest); reflexivity.
Qed.

Lemma strip_hex_0x (s : string) :
  free_of "x" s = true -> free_of " " s = true -> _strip_hex ("0x" ++ s) = s.
Proof.
  intros Fx Fs. unfold _strip_hex.
  change ("0x" ++ s) with ("0" ++ String "x" s).
  rewrite last_split_after, (last_split_id _ _ Fx). cbn [List.last].
  apply remove_char_id, Fs.
Qed.

Lemma decode_ascii_from_hex_body (upper : bool) (bytes : string) :
  decode_ascii_from_hex (hex_of upper bytes)
  = if is_ascii bytes then Ok bytes else Err TypeError.
Proof.
  unfold decode_ascii_from_hex.
  rewrite strip_hex_digits by apply all_digits_hex_of.
  rewrite decode_groupings_hex_of.
  destruct (is_ascii bytes); [rewrite concat_chars|]; reflexivity.
Qed.

(** X15.  [decode_ascii_from_hex] of the hexadecimal digits of a byte
    string, in either case and with or without "0x" in front, returns the
    string when all its bytes are below 128, and raises [TypeError] as soon
    as one is not: the substitution of "0" for a bad byte that the
    documentation announces never takes place. *)
Theorem decode_ascii_from_hex_of_bytes :
  forall (upper : bool) (bytes : string),
    decode_ascii_from_hex (hex_of upper bytes)
    = (if is_ascii bytes then Ok bytes else Err TypeError)
    /\ decode_ascii_from_hex ("0x" ++ hex_of upper bytes)
       = (if is_ascii bytes then Ok bytes else Err TypeError).
Proof.
  intros upper bytes.
  split; [apply decode_ascii_from_hex_body|].
  pose proof (decode_ascii_from_hex_body upper bytes) as E.
  unfold decode_ascii_from_hex in *.
  rewrite strip_hex_0x
    by (apply (all_digits_free_of 16), all_digits_hex_of; reflexivity).
  rewrite strip_hex_digits in E by apply all_digits_hex_of. exact E.
Qed.

Lemma value_bits_hex (upper : bool) (bytes : string) (acc : Z) :
  value_from 2 acc (bits_of bytes) = value_from 16 acc (hex_of upper bytes).
Proof.
  revert acc; induction bytes as [|c rest IH]; intros acc; [reflexivity|].
  cbn [bits_of hex_of]. rewrite !value_from_append.
  rewrite (value_from_fixed 2), (value_from_fixed 16) by lia.
  change (2 ^ Z.of_nat 8) with 256. change (16 ^ Z.of_nat 2) with 256.
  apply IH.
Qed.

Lemma canon_append (upper : bool) (a b : string) :
  canon upper (a ++ b) = canon upper a ++ canon upper b.
Proof. induction a as [|c a IH]; cbn; [|rewrite IH]; reflexivity. Qed.

Lemma canon_fixed (upper : bool) (w : nat) (n : Z) :
  canon upper (fixed 16 upper w n) = fixed 16 upper w n.
Proof.
  revert n; induction w as [|w IH]; intros n; [reflexivity|].
  cbn [fixed]. rewrite canon_append, IH. cbn [canon].
  rewrite digit_or_zero_char by (apply Z.mod_pos_bound; lia). reflexivity.
Qed.

Lemma canon_hex_of (upper : bool) (bytes : string) :
  canon upper (hex_of upper bytes) = hex_of upper bytes.
Proof.
  induction bytes as [|c rest IH]; [reflexivity|].
  cbn [hex_of]. rewrite canon_append, canon_fixed, IH. reflexivity.
Qed.

(** X16.  [decode_ascii_from_binary] of the binary digits of a non-empty
    byte string, eight per byte, returns the string when all its bytes are
    below 128 and raises [TypeError] otherwise. *)
Theorem decode_ascii_from_binary_of_bytes :
  forall (int_ : int_builtin) (bytes : string),
    int_reads_digits int_ ->
    bytes <> "" ->
    decode_ascii_from_binary int_ (bits_of bytes)
    = if is_ascii bytes then Ok bytes else Err TypeError.
Proof.
  intros int_ bytes Hint Hne.
  pose proof (all_digits_bits_of bytes) as Db.
  assert (Nb : bits_of bytes <> "").
  { intros E. apply (f_equal String.length) in E.
    rewrite length_bits_of in E. destruct bytes; [congruence | cbn in E; lia]. }
  pose proof (binary_to_hex_eq int_ Hint (bits_of bytes)) as E. cbv zeta in E.
  rewrite (strip_binary_digits _ Db) in E.
  unfold decode_ascii_from_binary. rewrite (E Nb Db).
  replace (fixed 16 true (Z.to_nat ((len (bits_of bytes) + 3) / 4))
             (digits_value 2 (bits_of bytes)))
    with (hex_of true bytes).
  - apply decode_ascii_from_hex_body.
  - unfold digits_value. rewrite (value_bits_hex true).
    replace (Z.to_nat ((len (bits_of bytes) + 3) / 4))
      with (String.length (hex_of true bytes) + 0)%nat.
    + rewrite (fixed_value_from 16 ltac:(lia) true _ 0 0
                 (all_digits_hex_of true bytes)).
      cbn [fixed append]. symmetry. apply canon_hex_of.
    + rewrite length_hex_of. unfold len. rewrite length_bits_of.
      pose proof (Z.div_mod (Z.of_nat (8 * String.length bytes) + 3) 4
                    ltac:(lia)).
      pose proof (Z.mod_pos_bound (Z.of_nat (8 * String.length bytes) + 3) 4
                    ltac:(lia)).
      lia.
Qed.

Lemma decode_ascii_from_binary_of_bytes_witness :
  decode_ascii_from_binary int_plain (bits_of "Taco")
  = if is_ascii "Taco" then Ok "Taco" else Err TypeError.
Proof.
  apply (decode_ascii_from_binary_of_bytes int_plain "Taco").
  - exact int_plain_reads_digits.
  - discriminate.
Defined.

(** *** The conversions from decimal *)

Lemma value_from_zeros (base : Z) (k : nat) :
  value_from base 0 (zeros (Z.of_nat k)) = 0.
Proof.
  induction k as [|k IH]; [reflexivity|].
  replace (Z.of_nat (S k)) with (Z.of_nat k + 1) by lia.
  rewrite zeros_succ by lia. cbn [value_from]. exact IH.
Qed.


Lemma zeros_of_nat (k : Z) : zeros k = zeros (Z.of_nat (Z.to_nat k)).
Proof. unfold zeros. rewrite Nat2Z.id. reflexivity. Qed.

(** Reading back the digits of a number gives the number. *)
Lemma digits_value_digits (base : Z) (upper : bool) (m : Z) :
  2 <= base <= 16 -> 0 <= m ->
  digits_value base (digits base upper m) = m.
Proof.
  intros Hb Hm. set (w := Z.to_nat (Z.log2 m)).
  assert (Hw : m < base ^ Z.of_nat (S w)).
  { destruct (Z.eq_dec m 0) as [->|Hn].
    - apply Z.pow_pos_nonneg; lia.
    - subst w. rewrite Nat2Z.inj_succ, Z2Nat.id by apply Z.log2_nonneg.
      pose proof (Z.log2_spec m ltac:(lia)) as [_ U].
      apply (Z.lt_le_trans _ _ _ U). apply Z.pow_le_mono_l. lia. }
  pose proof (pad_digits base Hb upper w m (conj Hm Hw)) as P.
  apply (f_equal (value_from base 0)) in P.
  rewrite value_from_append, zeros_of_nat, value_from_zeros in P.
  rewrite (value_from_fixed base Hb) in P.
  rewrite Z.mod_small in P by lia. unfold digits_value. lia.
Qed.

Lemma digits_not_empty (base : Z) (upper : bool) (m : Z) :
  digits base upper m <> "".
Proof.
  unfold digits. rewrite digits_fuel_S.
  destruct (m <? base); [discriminate|].
  destruct (digits_fuel _ base upper (m / base)); discriminate.
Qed.


Lemma strip_hex_hex_abs (n : Z) :
  _strip_hex (hex n) = digits 16 false (Z.abs n).
Proof.
  assert (D : all_digits 16 (digits 16 false (Z.abs n)) = true)
    by (apply all_digits_digits_fuel; lia).
  unfold hex, _strip_hex. destruct (n <? 0).
  - change ("-" ++ "0x" ++ digits 16 false (Z.abs n))
      with ("-0" ++ String "x" (digits 16 false (Z.abs n))).
    rewrite last_split_after. apply strip_hex_digits, D.
  - change ("" ++ "0x" ++ digits 16 false (Z.abs n))
      with ("0" ++ String "x" (digits 16 false (Z.abs n))).
    rewrite last_split_after. apply strip_hex_digits, D.
Qed.



(** X18.  Whenever [int(decimal)] is [n] and [int] reads hexadecimal digit
    strings as the numbers they write, [decimal_to_hex] returns the
    lower-case hexadecimal digits of the absolute value of [n], without
    leading zeros, and [hex_to_decimal] of that result is the decimal
    numeral of the absolute value: the round trip loses the sign.  (Stated
    for absolute values below 2^31, where [hex] and [str] write a number the
    same way in every version of the interpreter.) *)
Theorem decimal_hex_decimal_round_trip :
  forall (int_ : int_builtin) (decimal : string) (n : Z),
    int_reads_digits int_ ->
    int_ decimal 10 = Ok n ->
    Z.abs n < 2 ^ 31 ->
    decimal_to_hex int_ decimal = Ok (digits 16 false (Z.abs n))
    /\ hex_to_decimal int_ (digits 16 false (Z.abs n)) = Ok (str (Z.abs n)).
Proof.
  intros int_ decimal n Hlaw Hint _.
  assert (D : all_digits 16 (digits 16 false (Z.abs n)) = true)
    by (apply all_digits_digits_fuel; lia).
  split.
  - unfold decimal_to_hex. rewrite Hint, strip_hex_hex_abs. reflexivity.
  - unfold hex_to_decimal. rewrite (strip_hex_digits _ D).
    rewrite (Hlaw 16 _ (or_intror eq_refl) (digits_not_empty 16 false _) D).
    rewrite digits_value_digits by lia. reflexivity.
Qed.

Lemma decimal_hex_decimal_round_trip_witness :
  decimal_to_hex int_plain "255" = Ok "ff"
  /\ hex_to_decimal int_plain "ff" = Ok "255".
Proof.
  apply (decimal_hex_decimal_round_trip int_plain "255" 255).
  - exact int_plain_reads_digits.
  - reflexivity.
  - reflexivity.
Defined.
